(** * The Gym compatibility adapter of [RL/dqn_car.py]

    A shallow embedding of [GymCompatibilityWrapper] (its [reset] and [step]
    methods) over a small model of the Python values the adapter inspects,
    and of the image-layout transposition the training script applies on
    top of it. *)

From Stdlib Require Import ZArith List String Bool Lia Arith.
From Stdlib Require Import SpecFloat.
Import ListNotations.

Set Implicit Arguments.
Set Warnings "-register-all".

(** ** Exceptions and the error monad *)

(** The exception classes met by the adapter.  All of them derive from
    Python's [Exception], which is what the [except Exception] clause of
    [step] catches. *)
Inductive exn : Type :=
| TypeError
| ValueError
| OverflowError
| RuntimeError.

(** The outcome of evaluating a Python expression: a value, or a raised
    exception. *)
Inductive outcome (A : Type) : Type :=
| Ok (a : A)
| Raise (e : exn).

Arguments Ok {A} a.
Arguments Raise {A} e.

Definition bind {A B : Type} (c : outcome A) (k : A -> outcome B) : outcome B :=
  match c with
  | Ok a => k a
  | Raise e => Raise e
  end.

Declare Scope py_scope.
Delimit Scope py_scope with py.
Notation "x <- c ;; k" := (bind c (fun x => k))
  (at level 61, c at next level, right associativity) : py_scope.
Open Scope py_scope.

(** ** Python values *)

(** Python's [float] is IEEE-754 binary64. *)
Definition prec : Z := 53.
Definition emax : Z := 1024.
Definition pyfloat : Type := spec_float.

(** The literal [0.0]. *)
Definition float_zero : pyfloat := S754_zero false.
(** [1.0], the value of [float(True)]. *)
Definition float_one : pyfloat := SFone prec emax.

(** An object of a class the adapter knows nothing about (a [str], a numpy
    array or scalar, an instance of a user class), described by what the two
    protocols the adapter runs on its inputs do on it: truth testing
    ([__bool__], else [__len__]) and conversion by [float()]. *)
Record opaque : Type := mkOpaque {
  obj_truth : outcome bool;
  obj_float : outcome pyfloat
}.

(** The values that flow through the adapter.  [VTuple broken items] is a
    [tuple], or an instance of a subclass of [tuple]: [broken = Some e] when
    the subclass overrides [__len__] with a method that raises [e].
    [VDict] is a [dict] with [str] keys (the [Dict[str, Any]] of the
    adapter's signatures); the first binding of a key is the current one. *)
Inductive value : Type :=
| VNone
| VBool (b : bool)
| VInt (z : Z)
| VFloat (f : pyfloat)
| VTuple (broken : option exn) (items : list value)
| VList (items : list value)
| VDict (entries : list (string * value))
| VObj (o : opaque).

(** [isinstance(v, tuple)] *)
Definition is_tuple (v : value) : bool :=
  match v with
  | VTuple _ _ => true
  | _ => false
  end.

(** [isinstance(v, dict)] *)
Definition is_dict (v : value) : bool :=
  match v with
  | VDict _ => true
  | _ => false
  end.

(** [isinstance(v, float)] *)
Definition is_float (v : value) : bool :=
  match v with
  | VFloat _ => true
  | _ => false
  end.

(** [len(v)] *)
Definition len (v : value) : outcome nat :=
  match v with
  | VTuple None items => Ok (List.length items)
  | VTuple (Some e) _ => Raise e
  | VList items => Ok (List.length items)
  | VDict entries => Ok (List.length entries)
  | VNone | VBool _ | VInt _ | VFloat _ | VObj _ => Raise TypeError
  end.

(** Truth testing, [bool(v)].  A NaN is true; both zeros are false.  A
    container is true when it is not empty, which for a tuple subclass goes
    through its [__len__]. *)
Definition truth (v : value) : outcome bool :=
  match v with
  | VNone => Ok false
  | VBool b => Ok b
  | VInt z => Ok (negb (Z.eqb z 0))
  | VFloat (S754_zero _) => Ok false
  | VFloat _ => Ok true
  | VTuple None items => Ok (negb (Nat.eqb (List.length items) 0))
  | VTuple (Some e) _ => Raise e
  | VList items => Ok (negb (Nat.eqb (List.length items) 0))
  | VDict entries => Ok (negb (Nat.eqb (List.length entries) 0))
  | VObj o => obj_truth o
  end.

(** [a and b]: the value of [a] when it is false; [b] is evaluated only
    when [a] is true. *)
Definition py_and (a : value) (b : outcome value) : outcome value :=
  t <- truth a ;;
  if t then b else Ok a.

(** [not a] *)
Definition py_not (a : value) : outcome value :=
  t <- truth a ;;
  Ok (VBool (negb t)).

(** [bool(v)] as a value. *)
Definition py_bool (v : value) : outcome value :=
  t <- truth v ;;
  Ok (VBool t).

(** The float nearest to an [int] (ties to even); an [int] beyond the range
    of binary64 raises [OverflowError]. *)
Definition float_of_int (z : Z) : outcome pyfloat :=
  match binary_normalize prec emax z 0 false with
  | S754_infinity _ => Raise OverflowError
  | f => Ok f
  end.

(** The number [float(v)] denotes. *)
Definition to_float (v : value) : outcome pyfloat :=
  match v with
  | VBool b => Ok (if b then float_one else float_zero)
  | VInt z => float_of_int z
  | VFloat f => Ok f
  | VObj o => obj_float o
  | VNone | VTuple _ _ | VList _ | VDict _ => Raise TypeError
  end.

(** [float(v)] as a value. *)
Definition py_float (v : value) : outcome value :=
  f <- to_float v ;;
  Ok (VFloat f).

(** [d.get(key, default)] on the entries of a [dict]. *)
Fixpoint dict_get (entries : list (string * value)) (key : string)
    (default : value) : value :=
  match entries with
  | [] => default
  | (k, v) :: rest =>
      if String.eqb k key then v else dict_get rest key default
  end.

(** [key in d] *)
Fixpoint dict_mem (entries : list (string * value)) (key : string) : bool :=
  match entries with
  | [] => false
  | (k, _) :: rest => String.eqb k key || dict_mem rest key
  end.

(** ** The wrapped environment *)

(** The environment under the wrapper: [reset(seed=..., options=...)] and
    [step(action)] run on the environment's state and return a value or
    raise. *)
Record Env (S : Type) : Type := mkEnv {
  env_reset : value -> value -> S -> outcome value * S;
  env_step : value -> S -> outcome value * S
}.

(** ** [GymCompatibilityWrapper] *)

Module GymCompatibilityWrapper.

(** The key under which legacy Gym's [TimeLimit] wrapper flags a truncated
    episode. *)
Definition truncation_key : string := "TimeLimit.truncated".

(** A tuple display [(a, b, ...)]. *)
Definition tuple (items : list value) : value := VTuple None items.

(** [info if isinstance(info, dict) else {}] *)
Definition info_or_empty (info : value) : value :=
  if is_dict info then info else VDict [].

(** Lines 28-32: what [reset] makes of the result of the environment's
    [reset]. *)
Definition adapt_reset (result : value) : outcome value :=
  if is_tuple result then
    n <- len result ;;
    if Nat.eqb n 2 then
      match result with
      | VTuple _ [obs; info] => Ok (tuple [obs; info])
      | _ => Raise ValueError
      end
    else Ok (tuple [result; VDict []])
  else Ok (tuple [result; VDict []]).

(** [reset(self, *, seed=None, options=None)] *)
Definition reset {S : Type} (env : Env S) (seed options : value) (s : S)
    : outcome value * S :=
  let (r, s') := env_reset env seed options s in
  (result <- r ;; adapt_reset result, s').

(** [return result, float(0.0), False, False, {}] *)
Definition fallback (result : value) : outcome value :=
  zero <- py_float (VFloat float_zero) ;;
  Ok (tuple [result; zero; VBool false; VBool false; VDict []]).

(** Lines 43-57, the legacy branch, on the unpacked components. *)
Definition legacy_step (obs reward done info : value) : outcome value :=
  truncated <-
    (if is_dict info then
       match info with
       | VDict entries =>
           py_bool (dict_get entries truncation_key (VBool false))
       | _ => Ok (VBool false)
       end
     else Ok (VBool false)) ;;
  both <- py_and done (py_not truncated) ;;
  terminated <- py_bool both ;;
  reward' <- py_float reward ;;
  Ok (tuple [obs; reward'; terminated; truncated; info_or_empty info]).

(** Lines 58-67, the Gymnasium branch, on the unpacked components. *)
Definition modern_step (obs reward terminated truncated info : value)
    : outcome value :=
  reward' <- py_float reward ;;
  terminated' <- py_bool terminated ;;
  truncated' <- py_bool truncated ;;
  Ok (tuple [obs; reward'; terminated'; truncated'; info_or_empty info]).

(** Lines 36-70: what [step] makes of the result of the environment's
    [step]. *)
Definition adapt_step (result : value) : outcome value :=
  if is_tuple result then
    match len result with
    | Raise _ => fallback result
    | Ok n =>
        if Nat.eqb n 4 then
          match result with
          | VTuple _ [obs; reward; done; info] =>
              legacy_step obs reward done info
          | _ => Raise ValueError
          end
        else if Nat.eqb n 5 then
          match result with
          | VTuple _ [obs; reward; terminated; truncated; info] =>
              modern_step obs reward terminated truncated info
          | _ => Raise ValueError
          end
        else fallback result
    end
  else fallback result.

(** [step(self, action)] *)
Definition step {S : Type} (env : Env S) (action : value) (s : S)
    : outcome value * S :=
  let (r, s') := env_step env action s in
  (result <- r ;; adapt_step result, s').

End GymCompatibilityWrapper.

(** ** Environments to run the adapter on *)

(** An environment that plays back a script of outcomes, one per call of
    [reset] or [step], and raises once the script is exhausted. *)
Definition play (script : list (outcome value))
    : outcome value * list (outcome value) :=
  match script with
  | [] => (Raise RuntimeError, [])
  | r :: rest => (r, rest)
  end.

Definition scripted : Env (list (outcome value)) :=
  {| env_reset := fun _ _ script => play script;
     env_step := fun _ script => play script |}.

(** An environment that answers with the arguments it was called with and
    counts its calls. *)
Definition echo : Env nat :=
  {| env_reset := fun seed options calls =>
       (Ok (VList [seed; options]), S calls);
     env_step := fun action calls => (Ok (VList [action]), S calls) |}.

(** ** Results to run the adapter on *)

(** A legacy result of an episode that the time limit cut short. *)
Definition cut_short : value :=
  GymCompatibilityWrapper.tuple [VInt 3; VInt 1; VBool true;
         VDict [(GymCompatibilityWrapper.truncation_key, VBool true)]].

(** A Gymnasium result that signals both the end of the task and the time
    limit. *)
Definition both_signalled : value :=
  GymCompatibilityWrapper.tuple [VInt 3; VFloat float_one; VBool true; VBool true; VDict []].

(** A legacy result whose reward is missing. *)
Definition no_reward : value :=
  GymCompatibilityWrapper.tuple [VInt 3; VNone; VBool false; VDict []].

(** An instance of a subclass of [tuple] whose [__len__] raises. *)
Definition unmeasurable : value := VTuple (Some RuntimeError) [].

(** A legacy result whose info is not a mapping. *)
Definition bad_info : value :=
  GymCompatibilityWrapper.tuple [VInt 3; VInt 1; VBool true; VList []].

(** ** The shapes of a step result *)

(** The three ways [step] reads the result of the environment. *)
Inductive shape : Type :=
| Legacy (obs reward done info : value)
| Modern (obs reward terminated truncated info : value)
| Malformed.

Definition decode (result : value) : shape :=
  match result with
  | VTuple None [obs; reward; done; info] => Legacy obs reward done info
  | VTuple None [obs; reward; terminated; truncated; info] =>
      Modern obs reward terminated truncated info
  | _ => Malformed
  end.

(** The value whose truth is the truncation flag of a legacy [info]:
    [info.get("TimeLimit.truncated", False)] for a [dict], [False] for
    anything else. *)
Definition truncation_flag (info : value) : value :=
  match info with
  | VDict entries =>
      dict_get entries GymCompatibilityWrapper.truncation_key (VBool false)
  | _ => VBool false
  end.

(** A result [step] cannot read: not a tuple, or a tuple whose length
    cannot be measured, or is neither 4 nor 5. *)
Definition malformed (result : value) : Prop :=
  is_tuple result = false
  \/ (exists e, len result = Raise e)
  \/ (exists n, len result = Ok n /\ n <> 4 /\ n <> 5).

(** The same, as a test. *)
Definition malformedb (result : value) : bool :=
  match result with
  | VTuple None items =>
      negb (Nat.eqb (List.length items) 4 || Nat.eqb (List.length items) 5)
  | _ => true
  end.

(** ** The observation layout transposer *)

Module VecTransposeImage.

(** An array as numpy holds it: its shape, and its elements in row-major
    order.  The pixels of an image observation are unsigned bytes. *)
Record ndarray : Type := mkArray {
  shape : list nat;
  data : list Z
}.

(** The number of elements of an array of the given shape. *)
Definition size (dims : list nat) : nat := fold_right Nat.mul 1 dims.

(** Every array numpy builds holds as many elements as its shape says. *)
Definition well_formed (a : ndarray) : Prop :=
  List.length (data a) = size (shape a).

Fixpoint dims_eqb (xs ys : list nat) : bool :=
  match xs, ys with
  | [], [] => true
  | x :: xs', y :: ys' => Nat.eqb x y && dims_eqb xs' ys'
  | _, _ => false
  end.

(** The position of element [(i, j, k)] in the row-major elements of an
    array whose two last axes have lengths [n2] and [n3]. *)
Definition ravel (n2 n3 i j k : nat) : nat := (i * n2 + j) * n3 + k.

(** The index [(i, j, k)] of the element at position [p]. *)
Definition unravel (n2 n3 p : nat) : nat * nat * nat :=
  (p / (n2 * n3), (p / n3) mod n2, p mod n3).

(** The elements of the array of shape [(n1, n2, n3)] whose element
    [(i, j, k)] is [f i j k]. *)
Definition tabulate (n1 n2 n3 : nat) (f : nat -> nat -> nat -> Z) : list Z :=
  map (fun p => let '(i, j, k) := unravel n2 n3 p in f i j k)
      (seq 0 (n1 * n2 * n3)).

(** Element [(i, j, k)] of the elements [xs] of an array whose two last axes
    have lengths [n2] and [n3]. *)
Definition item (n2 n3 : nat) (xs : list Z) (i j k : nat) : Z :=
  nth (ravel n2 n3 i j k) xs 0%Z.

(** The image shape the training script declares for the environment
    (line 78): height, width, channels. *)
Definition image_shape : nat * nat * nat := (84, 84, 1).

(** A small image of two rows, three columns and two channels. *)
Definition sample : ndarray :=
  {| shape := [2; 3; 2];
     data := [1; 2; 3; 4; 5; 6; 7; 8; 9; 10; 11; 12]%Z |}.

(** Modelled from the spec: the transposer is [VecTransposeImage] of
    stable-baselines3, of which the repository holds only the call
    (line 88).  Section 4.4: a stateless rewrite of the layout of an image
    observation from height x width x channel to channel x height x width,
    which rejects an observation whose shape is not the declared one.
    Element [(k, i, j)] of the result is element [(i, j, k)] of the
    observation. *)
Definition transpose_image (h w c : nat) (a : ndarray) : outcome ndarray :=
  if dims_eqb (shape a) [h; w; c] then
    Ok {| shape := [c; h; w];
          data := tabulate c h w (fun k i j => item w c (data a) i j k) |}
  else Raise ValueError.

(** Modelled from the spec: the inverse rewrite of section 4.4, from
    channel x height x width to height x width x channel, of an observation
    of the declared shape.  Element [(i, j, k)] of the result is element
    [(k, i, j)] of the observation. *)
Definition untranspose_image (h w c : nat) (a : ndarray) : outcome ndarray :=
  if dims_eqb (shape a) [c; h; w] then
    Ok {| shape := [h; w; c];
          data := tabulate h w c (fun i j k => item h w (data a) k i j) |}
  else Raise ValueError.

End VecTransposeImage.

(** ** The adapter as an environment *)

(** [GymCompatibilityWrapper(base_env)], as [make_env] builds it (line 80),
    is an environment in its turn, the one [Monitor] is given: its [reset]
    and [step] are the adapter's. *)
Definition wrapped {S : Type} (env : Env S) : Env S :=
  {| env_reset := GymCompatibilityWrapper.reset env;
     env_step := GymCompatibilityWrapper.step env |}.

(** An object on which both truth testing and [float()] raise. *)
Definition stubborn : value :=
  VObj {| obj_truth := Raise ValueError; obj_float := Raise OverflowError |}.

(** A legacy result whose reward and whose truncation flag both resist
    coercion. *)
Definition two_failures : value :=
  GymCompatibilityWrapper.tuple
    [VInt 3; VNone; VBool true;
     VDict [(GymCompatibilityWrapper.truncation_key, stubborn)]].

(** A legacy result that is not done, of an episode the time limit cut. *)
Definition cut_not_done : value :=
  GymCompatibilityWrapper.tuple
    [VInt 3; VInt 1; VBool false;
     VDict [(GymCompatibilityWrapper.truncation_key, VInt 1)]].

(** The result of a [reset] whose second component is not a mapping. *)
Definition pair_without_mapping : value :=
  GymCompatibilityWrapper.tuple [VInt 3; VNone].

(** ** Lidar scans ([examples/capture_data.py], [cli.py]) *)

Module Lidar.

(** What the lidar code raises: [IndexError] and [ValueError] of its own,
    [typer.Exit(code)], and whatever a call of the simulator client
    raises. *)
Inductive failure : Type :=
| Index_error
| Value_error
| Exit (code : Z)
| Client_error (what : nat).

Inductive result (A : Type) : Type :=
| Done (a : A)
| Failed (e : failure).

Arguments Done {A} a.
Arguments Failed {A} e.

Definition rbind {A B : Type} (c : result A) (k : A -> result B) : result B :=
  match c with
  | Done a => k a
  | Failed e => Failed e
  end.

Declare Scope lidar_scope.
Delimit Scope lidar_scope with lidar.
Notation "x <- c ;; k" := (rbind c (fun x => k))
  (at level 61, c at next level, right associativity) : lidar_scope.
Local Open Scope lidar_scope.

(** [xs[i]] for an index that is not negative. *)
Definition getitem {A : Type} (xs : list A) (i : nat) : result A :=
  match nth_error xs i with
  | Some x => Done x
  | None => Failed Index_error
  end.

(** [range(start, stop, step)] for a positive [step]. *)
Definition range (start stop step : nat) : list nat :=
  map (fun k => start + k * step)
      (seq 0 ((stop - start + (step - 1)) / step)).

(** [[(points[i], points[i + 1], points[i + 2]) for i in starts]] *)
Fixpoint triples_at {A : Type} (points : list A) (starts : list nat)
    : result (list (A * A * A)) :=
  match starts with
  | [] => Done []
  | i :: rest =>
      x <- getitem points i ;;
      y <- getitem points (i + 1) ;;
      z <- getitem points (i + 2) ;;
      more <- triples_at points rest ;;
      Done ((x, y, z) :: more)
  end.

(** The comprehension of lines 34-36:
    [[(points[i], points[i + 1], points[i + 2])
      for i in range(0, len(points), 3)]]. *)
Definition group_points {A : Type} (points : list A)
    : result (list (A * A * A)) :=
  triples_at points (range 0 (List.length points) 3).

(** The flat list of the coordinates of a list of points. *)
Definition flatten {A : Type} (cloud : list (A * A * A)) : list A :=
  flat_map (fun p => let '(x, y, z) := p in [x; y; z]) cloud.

(** The whole points at the head of a flat list, and the coordinates left
    over. *)
Fixpoint chunks {A : Type} (xs : list A) : list (A * A * A) * list A :=
  match xs with
  | x :: y :: z :: rest =>
      let (cloud, left) := chunks rest in ((x, y, z) :: cloud, left)
  | _ => ([], xs)
  end.

(** The [point_cloud] of a reading: the flat list of a scan, another
    sequence of floats (a tuple), or a bare float ([0.0] is what a
    [LidarData] holds before any scan). *)
Inductive cloud : Type :=
| Points (xs : list pyfloat)
| Packed (xs : list pyfloat)
| Bare (x : pyfloat).

Record reading : Type := mkReading {
  point_cloud : cloud;
  time_stamp : Z
}.

(** [bool(point_cloud)] *)
Definition has_points (c : cloud) : bool :=
  match c with
  | Points xs | Packed xs => negb (Nat.eqb (List.length xs) 0)
  | Bare (S754_zero _) => false
  | Bare _ => true
  end.

(** The simulator client, as far as the lidar code calls it. *)
Record Client (C : Type) : Type := mkClient {
  enableApiControl : bool -> C -> result unit * C;
  getLidarData : C -> result reading * C
}.

(** The lines the lidar code prints. *)
Inductive message : Type :=
| Converting
| Retrieved (points : nat) (timestamp : Z)
| No_points
| Wrote (points : nat).

(** The client and the terminal. *)
Record world (C : Type) : Type := mkWorld {
  client : C;
  printed : list message
}.

Definition M (C A : Type) : Type := world C -> result A * world C.

Definition ret {C A : Type} (a : A) : M C A := fun w => (Done a, w).

Definition raise {C A : Type} (e : failure) : M C A :=
  fun w => (Failed e, w).

Definition mbind {C A B : Type} (c : M C A) (k : A -> M C B) : M C B :=
  fun w =>
    match c w with
    | (Done a, w') => k a w'
    | (Failed e, w') => (Failed e, w')
    end.

Definition call {C A : Type} (op : C -> result A * C) : M C A :=
  fun w =>
    let (r, c') := op (client w) in
    (r, {| client := c'; printed := printed w |}).

Definition print {C : Type} (m : message) : M C unit :=
  fun w => (Done tt, {| client := client w; printed := printed w ++ [m] |}).

Definition lift {C A : Type} (r : result A) : M C A := fun w => (r, w).

Declare Scope world_scope.
Delimit Scope world_scope with world.
Notation "x <- c ;; k" := (mbind c (fun x => k))
  (at level 61, c at next level, right associativity) : world_scope.

(** Lines 23-27: the list the grouping runs on. *)
Definition as_list {C : Type} (c : cloud) : M C (list pyfloat) :=
  (match c with
   | Points xs => ret xs
   | Packed xs => _ <- print Converting ;; ret xs
   | Bare x => _ <- print Converting ;; ret [x]
   end)%world.

(** [get_lidar_reading()] of [examples/capture_data.py]. *)
Definition get_lidar_reading {C : Type} (cl : Client C)
    : M C (list (pyfloat * pyfloat * pyfloat) * Z) :=
  (_ <- call (enableApiControl cl true) ;;
   lidar_data <- call (getLidarData cl) ;;
   if has_points (point_cloud lidar_data) then
     points <- as_list (point_cloud lidar_data) ;;
     let timestamp := time_stamp lidar_data in
     _ <- print (Retrieved (List.length points / 3) timestamp) ;;
     cloud <- lift (group_points points) ;;
     _ <- call (enableApiControl cl false) ;;
     ret (cloud, timestamp)
   else
     _ <- call (enableApiControl cl false) ;;
     raise Value_error)%world.

(** A simulator that records whether the API holds the car and delivers the
    readings of a script, one per call. *)
Definition sim : Client (bool * list reading) :=
  {| enableApiControl := fun on c => (Done tt, (on, snd c));
     getLidarData := fun c =>
       match snd c with
       | [] => (Failed (Client_error 0), c)
       | r :: rest => (Done r, (fst c, rest))
       end |}.

(** A scan of one point, a scan cut after the first coordinate of its
    second point, and the reading of a lidar that has not scanned. *)
Definition one_point : reading :=
  {| point_cloud := Points [float_one; float_zero; float_one];
     time_stamp := 7 |}.

Definition cut_scan : reading :=
  {| point_cloud := Points [float_one; float_zero; float_one; float_one];
     time_stamp := 8 |}.

Definition no_scan : reading :=
  {| point_cloud := Bare float_zero; time_stamp := 0 |}.

(** ** [lidar-dump] of [cli.py] *)

Definition newline : string := String (Ascii.ascii_of_nat 10) EmptyString.

Definition header : string := String.append "x,y,z" newline.

Section Dump.

(** How an f-string shows a coordinate. *)
Variable show : pyfloat -> string.

(** [f"{x},{y},{z}\n"] *)
Definition row (x y z : pyfloat) : string :=
  String.append (show x)
    (String.append ","
       (String.append (show y)
          (String.append "," (String.append (show z) newline)))).

(** Lines 364-366: the loop, on what the file holds so far. *)
Fixpoint write_rows (pts : list pyfloat) (starts : list nat)
    (content : string) : result unit * string :=
  match starts with
  | [] => (Done tt, content)
  | idx :: rest =>
      match (x <- getitem pts idx ;;
             y <- getitem pts (idx + 1) ;;
             z <- getitem pts (idx + 2) ;;
             Done (x, y, z)) with
      | Done (x, y, z) =>
          write_rows pts rest (String.append content (row x y z))
      | Failed e => (Failed e, content)
      end
  end.

(** Lines 353-367 of [lidar_dump], on the data the client returned ([None]
    when it has no [point_cloud] attribute) and on what the output file
    holds ([None] when there is no such file): the outcome, the file, and
    the lines printed. *)
Definition lidar_dump (data : option cloud) (file : option string)
    : result unit * option string * list message :=
  match data with
  | Some (Points pts) | Some (Packed pts) =>
      if Nat.ltb (List.length pts) 3 then
        (Failed (Exit 1), file, [No_points])
      else
        match write_rows pts (range 0 (List.length pts) 3) header with
        | (Done _, content) =>
            (Done tt, Some content, [Wrote (List.length pts / 3)])
        | (Failed e, content) => (Failed e, Some content, [])
        end
  | Some (Bare _) | None => (Failed (Exit 1), file, [No_points])
  end.

(** The rows of a list of points. *)
Definition rows (cloud : list (pyfloat * pyfloat * pyfloat)) : string :=
  fold_right (fun p rest => let '(x, y, z) := p in
                            String.append (row x y z) rest)
             EmptyString cloud.

End Dump.

(** A way to show a coordinate that tells zeros from the rest. *)
Definition mark (x : pyfloat) : string :=
  match x with
  | S754_zero _ => "0.0"
  | _ => "#"
  end.

End Lidar.

(** ** Running a script under environment overrides ([cli.py]) *)

Module Cli.

(** [os.environ]: the variables that are set, with their values. *)
Definition environ : Type := string -> option string.

(** [os.environ[k] = v] on the mapping. *)
Definition env_set (k v : string) (env : environ) : environ :=
  fun k' => if String.eqb k' k then Some v else env k'.

(** [os.environ.pop(k, None)] *)
Definition env_pop (k : string) (env : environ) : environ :=
  fun k' => if String.eqb k' k then None else env k'.

(** What [run_script] lets through to its caller: the [ValueError] of
    [os.environ] for a variable the platform refuses, the error of [int()]
    on an exit code that is not a number, and an exception of the script
    that is neither [SystemExit] nor an [Exception] (a
    [KeyboardInterrupt]). *)
Inductive failure : Type :=
| Refused_variable
| Bad_exit_code
| Interrupt (what : nat).

Inductive result (A : Type) : Type :=
| Done (a : A)
| Failed (e : failure).

Arguments Done {A} a.
Arguments Failed {A} e.

(** The [code] of a [SystemExit]: [None], an [int], or another object, of
    which [run_script] uses the truth and what [int()] makes of it. *)
Inductive exit_code : Type :=
| Code_none
| Code_int (n : Z)
| Code_other (truthy : bool) (as_int : option Z).

(** How the script run by [runpy.run_path] ends. *)
Inductive script_end : Type :=
| Returned
| Exited (code : exit_code)
| Raised (what : nat)
| Interrupted (what : nat).

(** A script: what it does to the environment, and how it ends. *)
Definition script : Type := environ -> script_end * environ.

(** The line [run_script] prints when the script fails. *)
Inductive message : Type :=
| Error_while_running.

(** [prev_env[k] = v] on the items of the [dict], in insertion order. *)
Fixpoint remember (k : string) (v : option string)
    (prev : list (string * option string)) : list (string * option string) :=
  match prev with
  | [] => [(k, v)]
  | (k', v') :: rest =>
      if String.eqb k' k then (k', v) :: rest
      else (k', v') :: remember k v rest
  end.

(** [int(e.code or 0)] *)
Definition exit_status (code : exit_code) : result Z :=
  match code with
  | Code_none => Done 0%Z
  | Code_int n => Done n
  | Code_other false _ => Done 0%Z
  | Code_other true (Some n) => Done n
  | Code_other true None => Failed Bad_exit_code
  end.

Section RunScript.

(** Whether the platform accepts the assignment of a value to a variable
    ([os.environ[k] = v] raises [ValueError] when it does not). *)
Variable accepts : string -> string -> bool.

(** Lines 50-52: the overrides are applied in order, each variable's
    previous value being remembered first; the loop stops at the first
    assignment that raises. *)
Fixpoint apply_overrides (overrides : list (string * string))
    (prev : list (string * option string)) (env : environ)
    : bool * list (string * option string) * environ :=
  match overrides with
  | [] => (true, prev, env)
  | (k, v) :: rest =>
      let prev' := remember k (env k) prev in
      if accepts k v then apply_overrides rest prev' (env_set k v env)
      else (false, prev', env)
  end.

(** Lines 62-66, the [finally] clause. *)
Fixpoint restore (prev : list (string * option string)) (env : environ)
    : bool * environ :=
  match prev with
  | [] => (true, env)
  | (k, None) :: rest => restore rest (env_pop k env)
  | (k, Some v) :: rest =>
      if accepts k v then restore rest (env_set k v env) else (false, env)
  end.

Record finished : Type := mkFinished {
  status : result Z;
  environ_after : environ;
  shown : list message
}.

(** [run_script(path, env_overrides)], on the script found at [path] and
    the items of [env_overrides] ([None] counts as no item). *)
Definition run_script (run_path : script)
    (env_overrides : list (string * string)) (env : environ) : finished :=
  let '(applied, prev_env, env1) := apply_overrides env_overrides [] env in
  let '(outcome, env2, lines) :=
    if applied then
      match run_path env1 with
      | (Returned, e) => (Done 0%Z, e, [])
      | (Exited code, e) => (exit_status code, e, [])
      | (Raised _, e) => (Done 1%Z, e, [Error_while_running])
      | (Interrupted what, e) => (Failed (Interrupt what), e, [])
      end
    else (Done 1%Z, env1, [Error_while_running]) in
  match restore prev_env env2 with
  | (true, env3) =>
      {| status := outcome; environ_after := env3; shown := lines |}
  | (false, env3) =>
      {| status := Failed Refused_variable; environ_after := env3;
         shown := lines |}
  end.

End RunScript.

(** The environment with the overrides applied. *)
Definition with_overrides (overrides : list (string * string))
    (env : environ) : environ :=
  fold_left (fun e kv => env_set (fst kv) (snd kv) e) overrides env.

(** What [run_script] makes of the end of the script: lines 54, 57, 60, and
    an exception neither clause catches. *)
Definition verdict (e : script_end) : result Z :=
  match e with
  | Returned => Done 0%Z
  | Exited code => exit_status code
  | Raised _ => Done 1%Z
  | Interrupted what => Failed (Interrupt what)
  end.

(** What the loop of the overrides keeps true, from an environment [env0]:
    it remembers the value in [env0] of every variable it met and has
    changed no other variable. *)
Definition remembers (env0 : environ)
    (prev : list (string * option string)) (env : environ) : Prop :=
  NoDup (map fst prev)
  /\ (forall k old, In (k, old) prev -> old = env0 k)
  /\ (forall k, ~ In k (map fst prev) -> env k = env0 k).

(** Every value the environment holds is one the platform accepts. *)
Definition accepted (accepts : string -> string -> bool) (env : environ)
    : Prop :=
  forall k v, env k = Some v -> accepts k v = true.

(** A platform that refuses empty names and names with an equals sign. *)
Definition posix (k v : string) : bool :=
  match k with
  | EmptyString => false
  | _ => match index 0 "=" k with Some _ => false | None => true end
  end.

(** An environment with one variable. *)
Definition one_car : environ :=
  fun k => if String.eqb k "CAR_NAME" then Some "Car1"%string else None.

(** A script that renames the car, sets a variable of its own, and exits
    with a message. *)
Definition noisy : script :=
  fun env =>
    (Exited (Code_other true None),
     env_set "CAR_NAME" "Car9" (env_set "TRACE" "on" env)).

(** The overrides [{"CAR_NAME": "Car7"}], and overrides with an empty
    name. *)
Definition car_seven : list (string * string) :=
  [("CAR_NAME"%string, "Car7"%string)].

Definition no_name : list (string * string) :=
  [(EmptyString, "Car7"%string)].

End Cli.

(** ** The [settings] command ([cli.py]) *)

Module Settings.

(** What [json.loads] builds.  It builds a tree: no object is reached by two
    paths, so that a change of a nested object is a change at its path. *)
Inductive json : Type :=
| JNull
| JBool (b : bool)
| JInt (z : Z)
| JFloat (f : pyfloat)
| JStr (s : string)
| JList (items : list json)
| JDict (items : list (string * json)).

(** What the command raises: the [TypeError] of an item assignment on
    something that is not a [dict], the [AttributeError] of [setdefault] on
    something that has no such method, the [UnicodeDecodeError] of reading
    a file that is not UTF-8, and [typer.Exit(code)]. *)
Inductive failure : Type :=
| Type_error
| Attribute_error
| Decode_error
| Exit (code : Z).

Inductive result (A : Type) : Type :=
| Done (a : A)
| Failed (e : failure).

Arguments Done {A} a.
Arguments Failed {A} e.

Definition rbind {A B : Type} (c : result A) (k : A -> result B) : result B :=
  match c with
  | Done a => k a
  | Failed e => Failed e
  end.

Declare Scope settings_scope.
Delimit Scope settings_scope with settings.
Notation "x <- c ;; k" := (rbind c (fun x => k))
  (at level 61, c at next level, right associativity) : settings_scope.
Local Open Scope settings_scope.

(** [bool(j)] *)
Definition truthy (j : json) : bool :=
  match j with
  | JNull => false
  | JBool b => b
  | JInt z => negb (Z.eqb z 0)
  | JFloat (S754_zero _) => false
  | JFloat _ => true
  | JStr s => negb (String.eqb s "")
  | JList items => negb (Nat.eqb (List.length items) 0)
  | JDict items => negb (Nat.eqb (List.length items) 0)
  end.

(** [d.get(k)] on the items of a [dict]. *)
Fixpoint lookup (k : string) (items : list (string * json)) : option json :=
  match items with
  | [] => None
  | (k', v) :: rest => if String.eqb k' k then Some v else lookup k rest
  end.

(** [d[k] = v] on the items of a [dict]: a key that is there keeps its
    place, a new key comes last. *)
Fixpoint put (k : string) (v : json) (items : list (string * json))
    : list (string * json) :=
  match items with
  | [] => [(k, v)]
  | (k', v') :: rest =>
      if String.eqb k' k then (k', v) :: rest else (k', v') :: put k v rest
  end.

(** [target[k] = v] *)
Definition setitem (target : json) (k : string) (v : json) : result json :=
  match target with
  | JDict items => Done (JDict (put k v items))
  | _ => Failed Type_error
  end.

(** [target.setdefault(k, {})]: the value at [k], and [target] after the
    call. *)
Definition setdefault (target : json) (k : string) : result (json * json) :=
  match target with
  | JDict items =>
      match lookup k items with
      | Some v => Done (v, target)
      | None => Done (JDict [], JDict (put k (JDict []) items))
      end
  | _ => Failed Attribute_error
  end.

(** The object [parent], seen again after the object it holds at [k] has
    been changed into [child]: objects are shared, not copied, so the change
    of [lidar] is a change of [sensors], of [car], of [vehicles] and of
    [data]. *)
Definition graft (parent : json) (k : string) (child : json) : json :=
  match parent with
  | JDict items => JDict (put k child items)
  | _ => parent
  end.

(** The value found by following keys from the root. *)
Fixpoint at_path (keys : list string) (j : json) : option json :=
  match keys with
  | [] => Some j
  | k :: rest =>
      match j with
      | JDict items =>
          match lookup k items with
          | Some v => at_path rest v
          | None => None
          end
      | _ => None
      end
  end.

(** The value at [k], or the [{}] that [setdefault] puts there. *)
Definition child_or_empty (k : string) (items : list (string * json))
    : json :=
  match lookup k items with
  | Some c => c
  | None => JDict []
  end.

(** The tree in which the object at the end of the path [keys] has been
    changed by [f], the objects on the way being made when they are
    missing. *)
Fixpoint descend (keys : list string) (f : json -> option json) (j : json)
    : option json :=
  match keys with
  | [] => f j
  | k :: rest =>
      match j with
      | JDict items =>
          match descend rest f (child_or_empty k items) with
          | Some child' => Some (JDict (put k child' items))
          | None => None
          end
      | _ => None
      end
  end.

(** The tree with [v] at the end of the path [keys], the objects on the
    way being made when they are missing; there is no such tree when a
    value on the way is not an object. *)
Fixpoint set_path (keys : list string) (v : json) (j : json) : option json :=
  match keys with
  | [] => Some v
  | k :: rest =>
      match j with
      | JDict items =>
          match set_path rest v (child_or_empty k items) with
          | Some child' => Some (JDict (put k child' items))
          | None => None
          end
      | _ => None
      end
  end.

(** Two paths that part at some key. *)
Definition parts (p q : list string) : Prop :=
  exists common k r k' r',
    p = common ++ k :: r /\ q = common ++ k' :: r' /\ k <> k'.

(** The options of the command. *)
Record options : Type := mkOptions {
  show : bool;
  sim_mode : option string;
  vehicle : option string;
  enable_lidar : option bool;
  lidar_rate : option Z;
  save : bool
}.

(** [settings.json]: absent, not UTF-8, not JSON, or holding a value. *)
Inductive file_state : Type :=
| Missing
| Undecodable
| Unparsable
| Holds (data : json).

(** The lines the command prints. *)
Inductive message : Type :=
| Not_found
| Parse_failed
| Dump (data : json)
| Saved.

(** [read_settings()] *)
Definition read_settings (file : file_state) : result json * list message :=
  match file with
  | Missing => (Done (JDict []), [Not_found])
  | Undecodable => (Failed Decode_error, [])
  | Unparsable => (Done (JDict []), [Parse_failed])
  | Holds data => (Done data, [])
  end.

(** [vehicle or "Car1"] *)
Definition vkey (o : options) : string :=
  match vehicle o with
  | Some (String c s) => String c s
  | _ => "Car1"
  end.

(** Lines 246-262: the changes the options ask for, on the settings read;
    the settings afterwards, and [changed]. *)
Definition apply_options (o : options) (data : json) : result (json * bool) :=
  first <- (match sim_mode o with
            | Some (String c s) =>
                d <- setitem data "SimMode" (JStr (String c s)) ;;
                Done (d, true)
            | _ => Done (data, false)
            end) ;;
  let '(data1, changed1) := first in
  match enable_lidar o, lidar_rate o with
  | None, None => Done (data1, changed1)
  | _, _ =>
      a <- setdefault data1 "Vehicles" ;;
      let '(vehicles, data2) := a in
      b <- setdefault vehicles (vkey o) ;;
      let '(car, vehicles1) := b in
      c <- setdefault car "Sensors" ;;
      let '(sensors, car1) := c in
      d <- setdefault sensors "Lidar360" ;;
      let '(lidar, sensors1) := d in
      lidar1 <- (match enable_lidar o with
                 | Some on => setitem lidar "Enabled" (JBool on)
                 | None => Done lidar
                 end) ;;
      lidar2 <- (match lidar_rate o with
                 | Some pps => setitem lidar1 "PointsPerSecond" (JInt pps)
                 | None => Done lidar1
                 end) ;;
      Done (graft data2 "Vehicles"
              (graft vehicles1 (vkey o)
                 (graft car1 "Sensors" (graft sensors1 "Lidar360" lidar2))),
            true)
  end.

(** The path of a key of the lidar of the vehicle the options name. *)
Definition lidar_path (o : options) (key : string) : list string :=
  ["Vehicles"%string; vkey o; "Sensors"%string; "Lidar360"%string; key].

(** Whether the options ask for a change. *)
Definition asks (o : options) : bool :=
  match sim_mode o with Some (String _ _) => true | _ => false end
  || match enable_lidar o with Some _ => true | None => false end
  || match lidar_rate o with Some _ => true | None => false end.

(** What the options ask for, path by path. *)
Definition intended (o : options) (data : json) : option (json * bool) :=
  match (match sim_mode o with
         | Some (String c s) =>
             set_path ["SimMode"%string] (JStr (String c s)) data
         | _ => Some data
         end) with
  | None => None
  | Some d1 =>
      match (match enable_lidar o with
             | Some on => set_path (lidar_path o "Enabled") (JBool on) d1
             | None => Some d1
             end) with
      | None => None
      | Some d2 =>
          match (match lidar_rate o with
                 | Some pps =>
                     set_path (lidar_path o "PointsPerSecond") (JInt pps) d2
                 | None => Some d2
                 end) with
          | None => None
          | Some d3 => Some (d3, asks o)
          end
      end
  end.

Definition to_option {A : Type} (r : result A) : option A :=
  match r with
  | Done a => Some a
  | Failed _ => None
  end.

(** [target[k] = v], when it does not raise. *)
Definition put_at (k : string) (v : json) (l : json) : option json :=
  match l with
  | JDict items => Some (JDict (put k v items))
  | _ => None
  end.

(** The path to the lidar of the vehicle the options name. *)
Definition keys_to_lidar (o : options) : list string :=
  ["Vehicles"%string; vkey o; "Sensors"%string; "Lidar360"%string].

(** Whether a value is an object. *)
Definition is_object (j : json) : bool :=
  match j with
  | JDict _ => true
  | _ => false
  end.

(** What a run of the command leaves: its outcome, the lines printed, and
    what it wrote to [settings.json], if it wrote. *)
Record run : Type := mkRun {
  outcome : result unit;
  printed : list message;
  written : option json
}.

(** [settings_cmd], lines 242-269. *)
Definition settings_cmd (o : options) (file : file_state) : run :=
  match read_settings file with
  | (Failed e, lines) =>
      {| outcome := Failed e; printed := lines; written := None |}
  | (Done data, lines) =>
      if negb (truthy data) then
        {| outcome := Failed (Exit 1); printed := lines; written := None |}
      else
        match apply_options o data with
        | Failed e =>
            {| outcome := Failed e; printed := lines; written := None |}
        | Done (data', changed) =>
            let dump :=
              if show o || negb changed then [Dump data'] else [] in
            if save o && changed then
              {| outcome := Done tt; printed := lines ++ dump ++ [Saved];
                 written := Some data' |}
            else
              {| outcome := Done tt; printed := lines ++ dump;
                 written := None |}
        end
  end.

(** Settings with one car and no sensor, and the options
    [--enable-lidar --lidar-pps 1000 --save]. *)
Definition plain_settings : json :=
  JDict [("SimMode"%string, JStr "Car");
         ("Vehicles"%string,
          JDict [("Car1"%string,
                  JDict [("VehicleType"%string, JStr "PhysXCar")])])].

Definition lidar_on : options :=
  {| show := false; sim_mode := None; vehicle := None;
     enable_lidar := Some true; lidar_rate := Some 1000%Z; save := true |}.

(** The same settings with the lidar of [Car1] enabled at 1000 points per
    second. *)
Definition lidar_settings : json :=
  JDict [("SimMode"%string, JStr "Car");
         ("Vehicles"%string,
          JDict [("Car1"%string,
                  JDict [("VehicleType"%string, JStr "PhysXCar");
                         ("Sensors"%string,
                          JDict [("Lidar360"%string,
                                  JDict [("Enabled"%string, JBool true);
                                         ("PointsPerSecond"%string,
                                          JInt 1000)])])])])].

(** Settings whose [Vehicles] is a list. *)
Definition odd_settings : json :=
  JDict [("Vehicles"%string, JList [])].

End Settings.

(** * Properties of the adapter *)

Unset Implicit Arguments.

Module AdapterFacts.
Import GymCompatibilityWrapper.

(** ** The error monad *)

Lemma bind_ok (A B : Type) (c : outcome A) (k : A -> outcome B) (b : B) :
  bind c k = Ok b -> exists a, c = Ok a /\ k a = Ok b.
Proof.
  destruct c as [a | e]; simpl; intros H.
  - exists a. split; [reflexivity | exact H].
  - discriminate H.
Qed.

Lemma bind_raise (A B : Type) (c : outcome A) (k : A -> outcome B) (e : exn) :
  bind c k = Raise e -> c = Raise e \/ exists a, c = Ok a /\ k a = Raise e.
Proof.
  destruct c as [a | e']; simpl; intros H.
  - right. exists a. split; [reflexivity | exact H].
  - left. injection H as ->. reflexivity.
Qed.

(** ** Coercions *)

Lemma py_bool_truth (v : value) (t : bool) :
  truth v = Ok t -> py_bool v = Ok (VBool t).
Proof. intros H. unfold py_bool. rewrite H. reflexivity. Qed.

Lemma py_float_to_float (v : value) (f : pyfloat) :
  to_float v = Ok f -> py_float v = Ok (VFloat f).
Proof. intros H. unfold py_float. rewrite H. reflexivity. Qed.

(** [bool(done and not truncated)] for a [bool] [truncated]. *)
Lemma done_and_not_truncated (done : value) (d t : bool) :
  truth done = Ok d ->
  (both <- py_and done (py_not (VBool t)) ;; py_bool both)
  = Ok (VBool (d && negb t)).
Proof.
  intros Hd. unfold py_and. rewrite Hd. simpl.
  destruct d; simpl.
  - reflexivity.
  - unfold py_bool. rewrite Hd. reflexivity.
Qed.

Lemma done_and_not_truncated_raise (done : value) (t : bool) (e : exn) :
  truth done = Raise e ->
  (both <- py_and done (py_not (VBool t)) ;; py_bool both) = Raise e.
Proof. intros Hd. unfold py_and. rewrite Hd. reflexivity. Qed.

Lemma dict_get_absent (entries : list (string * value)) (key : string)
    (default : value) :
  dict_mem entries key = false -> dict_get entries key default = default.
Proof.
  induction entries as [| [k v] rest IH]; simpl; intros H.
  - reflexivity.
  - apply orb_false_iff in H. destruct H as [Hk Hrest].
    rewrite Hk. apply IH. exact Hrest.
Qed.

(** ** The three branches of [step] *)

Lemma adapt_step_decode (result : value) :
  adapt_step result =
  match decode result with
  | Legacy obs reward done info => legacy_step obs reward done info
  | Modern obs reward terminated truncated info =>
      modern_step obs reward terminated truncated info
  | Malformed => fallback result
  end.
Proof.
  destruct result as [| b | z | f | broken items | items | entries | o];
    try reflexivity.
  destruct broken as [e |]; [reflexivity |].
  destruct items as [| a [| b [| c [| d [| e [| f rest]]]]]]; reflexivity.
Qed.

Lemma malformed_decode (result : value) :
  malformed result -> decode result = Malformed.
Proof.
  intros H.
  destruct result as [| b | z | f | broken items | items | entries | o];
    try reflexivity.
  destruct broken as [e |]; [reflexivity |].
  destruct H as [H | [[e H] | [n [H [H4 H5]]]]]; simpl in H;
    try discriminate H.
  injection H as H. subst n.
  destruct items as [| a [| b [| c [| d [| e [| f rest]]]]]];
    simpl in *; try reflexivity; congruence.
Qed.

Lemma malformedb_spec (result : value) :
  malformedb result = true <-> malformed result.
Proof.
  split.
  - destruct result as [| b | z | f | broken items | items | entries | o];
      simpl; intros H; try (left; reflexivity).
    destruct broken as [e |].
    + right. left. exists e. reflexivity.
    + right. right. exists (List.length items). split; [reflexivity |].
      apply negb_true_iff, orb_false_iff in H. destruct H as [H4 H5].
      apply Nat.eqb_neq in H4. apply Nat.eqb_neq in H5. split; assumption.
  - intros H. apply malformed_decode in H.
    destruct result as [| b | z | f | broken items | items | entries | o];
      try reflexivity.
    destruct broken as [e |]; [reflexivity |].
    destruct items as [| a [| b [| c [| d [| e [| f rest]]]]]];
      simpl in *; try reflexivity; discriminate H.
Qed.

Lemma fallback_ok (result : value) :
  fallback result =
  Ok (tuple [result; VFloat float_zero; VBool false; VBool false; VDict []]).
Proof. reflexivity. Qed.

Lemma adapt_step_malformed (result : value) :
  malformed result ->
  adapt_step result =
  Ok (tuple [result; VFloat float_zero; VBool false; VBool false; VDict []]).
Proof.
  intros H. rewrite adapt_step_decode, (malformed_decode _ H).
  apply fallback_ok.
Qed.

Lemma legacy_step_ok (obs reward done info : value) (r : pyfloat)
    (d t : bool) :
  to_float reward = Ok r ->
  truth done = Ok d ->
  truth (truncation_flag info) = Ok t ->
  legacy_step obs reward done info =
  Ok (tuple [obs; VFloat r; VBool (d && negb t); VBool t;
             info_or_empty info]).
Proof.
  intros Hr Hd Ht. unfold legacy_step.
  assert (Hflag :
    (if is_dict info then
       match info with
       | VDict entries =>
           py_bool (dict_get entries truncation_key (VBool false))
       | _ => Ok (VBool false)
       end
     else Ok (VBool false)) = Ok (VBool t)).
  { destruct info; simpl in *; try (injection Ht as <-; reflexivity).
    apply py_bool_truth. exact Ht. }
  rewrite Hflag. cbn [bind].
  pose proof (done_and_not_truncated done d t Hd) as Hboth.
  destruct (py_and done (py_not (VBool t))) as [both | e]; cbn [bind] in *.
  - rewrite Hboth. cbn [bind].
    rewrite (py_float_to_float _ _ Hr). reflexivity.
  - discriminate Hboth.
Qed.

Lemma modern_step_ok (obs reward terminated truncated info : value)
    (r : pyfloat) (te tr : bool) :
  to_float reward = Ok r ->
  truth terminated = Ok te ->
  truth truncated = Ok tr ->
  modern_step obs reward terminated truncated info =
  Ok (tuple [obs; VFloat r; VBool te; VBool tr; info_or_empty info]).
Proof.
  intros Hr Hte Htr. unfold modern_step.
  rewrite (py_float_to_float _ _ Hr). cbn [bind].
  rewrite (py_bool_truth _ _ Hte). cbn [bind].
  rewrite (py_bool_truth _ _ Htr). reflexivity.
Qed.

(** The legacy branch, coercion by coercion: the truncation flag, then
    [done], then the reward. *)
Lemma legacy_step_eq (obs reward done info : value) :
  legacy_step obs reward done info =
  (t <- truth (truncation_flag info) ;;
   d <- truth done ;;
   r <- to_float reward ;;
   Ok (tuple [obs; VFloat r; VBool (d && negb t); VBool t;
              info_or_empty info])).
Proof.
  destruct (truth (truncation_flag info)) as [t | e] eqn:Ht.
  - destruct (truth done) as [d | e] eqn:Hd.
    + destruct (to_float reward) as [r | e] eqn:Hr.
      * apply legacy_step_ok; assumption.
      * unfold legacy_step.
        replace (if is_dict info then _ else _) with (Ok (VBool t)).
        2:{ destruct info; simpl in *; try (injection Ht as <-; reflexivity).
            symmetry. apply py_bool_truth. exact Ht. }
        cbn [bind].
        pose proof (done_and_not_truncated done d t Hd) as Hboth.
        destruct (py_and done (py_not (VBool t))) as [both | e'];
          cbn [bind] in *; [| discriminate Hboth].
        rewrite Hboth. cbn [bind]. unfold py_float. rewrite Hr. reflexivity.
    + unfold legacy_step.
      replace (if is_dict info then _ else _) with (Ok (VBool t)).
      2:{ destruct info; simpl in *; try (injection Ht as <-; reflexivity).
          symmetry. apply py_bool_truth. exact Ht. }
      cbn [bind]. unfold py_and. rewrite Hd. reflexivity.
  - unfold legacy_step.
    destruct info; simpl in Ht; try discriminate Ht.
    simpl. unfold py_bool. rewrite Ht. reflexivity.
Qed.

(** The Gymnasium branch, coercion by coercion: the reward, then
    [terminated], then [truncated]. *)
Lemma modern_step_eq (obs reward terminated truncated info : value) :
  modern_step obs reward terminated truncated info =
  (r <- to_float reward ;;
   te <- truth terminated ;;
   tr <- truth truncated ;;
   Ok (tuple [obs; VFloat r; VBool te; VBool tr; info_or_empty info])).
Proof.
  unfold modern_step, py_float, py_bool.
  destruct (to_float reward) as [r | e]; cbn [bind]; [| reflexivity].
  destruct (truth terminated) as [te | e]; cbn [bind]; [| reflexivity].
  destruct (truth truncated) as [tr | e]; reflexivity.
Qed.

Lemma decode_legacy (result obs reward done info : value) :
  decode result = Legacy obs reward done info ->
  result = tuple [obs; reward; done; info].
Proof.
  destruct result as [| b | z | f | broken items | items | entries | o];
    try discriminate.
  destruct broken as [e |]; [discriminate |].
  destruct items as [| a [| b [| c [| d [| e [| f rest]]]]]];
    simpl; intros H; try discriminate H.
  injection H as -> -> -> ->. reflexivity.
Qed.

Lemma decode_modern (result obs reward terminated truncated info : value) :
  decode result = Modern obs reward terminated truncated info ->
  result = tuple [obs; reward; terminated; truncated; info].
Proof.
  destruct result as [| b | z | f | broken items | items | entries | o];
    try discriminate.
  destruct broken as [e |]; [discriminate |].
  destruct items as [| a [| b [| c [| d [| e [| f rest]]]]]];
    simpl; intros H; try discriminate H.
  injection H as -> -> -> -> ->. reflexivity.
Qed.

Lemma decode_malformed (result : value) :
  decode result = Malformed -> malformed result.
Proof.
  intros H. apply malformedb_spec.
  destruct result as [| b | z | f | broken items | items | entries | o];
    try reflexivity.
  destruct broken as [e |]; [reflexivity |].
  destruct items as [| a [| b [| c [| d [| e [| f rest]]]]]];
    simpl in *; try reflexivity; discriminate H.
Qed.

(** What a step that returns has returned, branch by branch. *)
Lemma adapt_step_ok_inv (result out : value) :
  adapt_step result = Ok out ->
  (exists obs reward done info r d t,
      result = tuple [obs; reward; done; info]
      /\ to_float reward = Ok r /\ truth done = Ok d
      /\ truth (truncation_flag info) = Ok t
      /\ out = tuple [obs; VFloat r; VBool (d && negb t); VBool t;
                      info_or_empty info])
  \/ (exists obs reward terminated truncated info r te tr,
      result = tuple [obs; reward; terminated; truncated; info]
      /\ to_float reward = Ok r /\ truth terminated = Ok te
      /\ truth truncated = Ok tr
      /\ out = tuple [obs; VFloat r; VBool te; VBool tr;
                      info_or_empty info])
  \/ (malformed result
      /\ out = tuple [result; VFloat float_zero; VBool false; VBool false;
                      VDict []]).
Proof.
  rewrite adapt_step_decode.
  destruct (decode result)
    as [obs reward done info | obs reward te tr info |] eqn:Hdec.
  - rewrite legacy_step_eq. intros H. left.
    destruct (truth (truncation_flag info)) as [t | e] eqn:Ht;
      [| discriminate H].
    destruct (truth done) as [d | e] eqn:Hd; [| discriminate H].
    destruct (to_float reward) as [r | e] eqn:Hr; [| discriminate H].
    injection H as <-.
    exists obs, reward, done, info, r, d, t.
    rewrite (decode_legacy _ _ _ _ _ Hdec). repeat split; assumption.
  - rewrite modern_step_eq. intros H. right. left.
    destruct (to_float reward) as [r | e] eqn:Hr; [| discriminate H].
    destruct (truth te) as [bte | e] eqn:Hte; [| discriminate H].
    destruct (truth tr) as [btr | e] eqn:Htr; [| discriminate H].
    injection H as <-.
    exists obs, reward, te, tr, info, r, bte, btr.
    rewrite (decode_modern _ _ _ _ _ _ Hdec). repeat split; assumption.
  - rewrite fallback_ok. intros H. injection H as <-.
    right. right. split; [apply decode_malformed; exact Hdec | reflexivity].
Qed.

(** A step that raises on a result it was given raises from one of the
    coercions of the two tuple branches. *)
Lemma adapt_step_raise_inv (result : value) (e : exn) :
  adapt_step result = Raise e ->
  (exists obs reward done info,
      result = tuple [obs; reward; done; info]
      /\ (truth (truncation_flag info) = Raise e
          \/ truth done = Raise e \/ to_float reward = Raise e))
  \/ (exists obs reward terminated truncated info,
      result = tuple [obs; reward; terminated; truncated; info]
      /\ (to_float reward = Raise e
          \/ truth terminated = Raise e \/ truth truncated = Raise e)).
Proof.
  rewrite adapt_step_decode.
  destruct (decode result)
    as [obs reward done info | obs reward te tr info |] eqn:Hdec.
  - rewrite legacy_step_eq. intros H. left.
    exists obs, reward, done, info.
    split; [apply decode_legacy; exact Hdec |].
    destruct (truth (truncation_flag info)) as [t | e1] eqn:Ht;
      [| left; cbn [bind] in H; congruence].
    destruct (truth done) as [d | e2] eqn:Hd; [| right; left; cbn [bind] in H; congruence].
    destruct (to_float reward) as [r | e3] eqn:Hr; [discriminate H |].
    right; right; cbn [bind] in H; congruence.
  - rewrite modern_step_eq. intros H. right.
    exists obs, reward, te, tr, info.
    split; [apply decode_modern; exact Hdec |].
    destruct (to_float reward) as [r | e1] eqn:Hr; [| left; cbn [bind] in H; congruence].
    destruct (truth te) as [bte | e2] eqn:Hte; [| right; left; cbn [bind] in H; congruence].
    destruct (truth tr) as [btr | e3] eqn:Htr; [discriminate H |].
    right; right; cbn [bind] in H; congruence.
  - rewrite fallback_ok. discriminate.
Qed.

(** The reward of what a tuple branch returned is [float()] of the
    reward it was given. *)
Lemma legacy_reward_inv (obs reward done info o rw te tr i : value) :
  legacy_step obs reward done info = Ok (tuple [o; rw; te; tr; i]) ->
  py_float reward = Ok rw /\ is_float rw = true.
Proof.
  rewrite legacy_step_eq. intros H.
  destruct (truth (truncation_flag info)) as [t | e]; [| discriminate H].
  destruct (truth done) as [d | e]; [| discriminate H].
  destruct (to_float reward) as [r | e] eqn:Hr; [| discriminate H].
  injection H as _ <- _ _ _.
  split; [apply py_float_to_float; exact Hr | reflexivity].
Qed.

Lemma modern_reward_inv
    (obs reward terminated truncated info o rw te tr i : value) :
  modern_step obs reward terminated truncated info
  = Ok (tuple [o; rw; te; tr; i]) ->
  py_float reward = Ok rw /\ is_float rw = true.
Proof.
  rewrite modern_step_eq. intros H.
  destruct (to_float reward) as [r | e] eqn:Hr; [| discriminate H].
  destruct (truth terminated) as [bte | e]; [| discriminate H].
  destruct (truth truncated) as [btr | e]; [| discriminate H].
  injection H as _ <- _ _ _.
  split; [apply py_float_to_float; exact Hr | reflexivity].
Qed.

(** ** [step] and [reset] over an environment *)

Section OverEnv.

Context {S : Type} (env : Env S).

Lemma step_run (action : value) (s s' : S) (r : outcome value) :
  env_step env action s = (r, s') ->
  step env action s = (bind r adapt_step, s').
Proof. intros H. unfold step. rewrite H. reflexivity. Qed.

Lemma step_ok_inv (action : value) (s s' s'' : S) (result out : value) :
  env_step env action s = (Ok result, s') ->
  step env action s = (Ok out, s'') ->
  adapt_step result = Ok out /\ s'' = s'.
Proof.
  intros Henv Hstep. rewrite (step_run _ _ _ _ Henv) in Hstep.
  simpl in Hstep. injection Hstep as H1 H2. split; [exact H1 | congruence].
Qed.

Lemma reset_run (seed options : value) (s s' : S) (r : outcome value) :
  env_reset env seed options s = (r, s') ->
  reset env seed options s = (bind r adapt_reset, s').
Proof. intros H. unfold reset. rewrite H. reflexivity. Qed.

End OverEnv.

(** ** The step contract *)

Section StepContract.

Context {S : Type} (env : Env S).

(** C1: when the environment's step returns a 4-element tuple
    (observation, reward, done, info) whose info is a mapping, the adapter's
    step returns truncated = the truth of info's ["TimeLimit.truncated"]
    entry (false when the entry is absent) and terminated = done and not
    truncated.  In particular a true done with a true flag gives
    terminated = false, truncated = true, and a true done with no flag gives
    terminated = true, truncated = false. *)
Theorem step_legacy_flags (action : value) (s s' : S)
    (obs reward done : value) (entries : list (string * value))
    (r : pyfloat) (d t : bool) :
  env_step env action s = (Ok (tuple [obs; reward; done; VDict entries]), s') ->
  to_float reward = Ok r ->
  truth done = Ok d ->
  truth (dict_get entries truncation_key (VBool false)) = Ok t ->
  step env action s =
    (Ok (tuple [obs; VFloat r; VBool (d && negb t); VBool t; VDict entries]),
     s')
  /\ (dict_mem entries truncation_key = false -> t = false)
  /\ (d = true -> t = true ->
      step env action s =
        (Ok (tuple [obs; VFloat r; VBool false; VBool true; VDict entries]),
         s'))
  /\ (d = true -> dict_mem entries truncation_key = false ->
      step env action s =
        (Ok (tuple [obs; VFloat r; VBool true; VBool false; VDict entries]),
         s')).
Proof.
  intros Henv Hr Hd Ht.
  assert (Hstep : step env action s =
    (Ok (tuple [obs; VFloat r; VBool (d && negb t); VBool t; VDict entries]),
     s')).
  { rewrite (step_run env _ _ _ _ Henv). cbn [bind].
    rewrite adapt_step_decode. cbn [decode tuple].
    rewrite (legacy_step_ok obs reward done (VDict entries) r d t Hr Hd Ht).
    reflexivity. }
  assert (Habsent : dict_mem entries truncation_key = false -> t = false).
  { intros Hmem. rewrite (dict_get_absent _ _ _ Hmem) in Ht.
    simpl in Ht. congruence. }
  repeat split.
  - exact Hstep.
  - exact Habsent.
  - intros -> ->. exact Hstep.
  - intros -> Hmem. rewrite (Habsent Hmem) in Hstep. exact Hstep.
Qed.

(** C2: when the environment's step returns a 5-element tuple
    (observation, reward, terminated, truncated, info), the adapter's step
    returns the observation unchanged, the reward coerced to a float, and
    terminated and truncated coerced to booleans. *)
Theorem step_modern_passthrough (action : value) (s s' : S)
    (obs reward terminated truncated info : value)
    (r : pyfloat) (te tr : bool) :
  env_step env action s =
    (Ok (tuple [obs; reward; terminated; truncated; info]), s') ->
  to_float reward = Ok r ->
  truth terminated = Ok te ->
  truth truncated = Ok tr ->
  step env action s =
    (Ok (tuple [obs; VFloat r; VBool te; VBool tr; info_or_empty info]), s').
Proof.
  intros Henv Hr Hte Htr.
  rewrite (step_run env _ _ _ _ Henv). cbn [bind].
  rewrite adapt_step_decode. cbn [decode tuple].
  rewrite (modern_step_ok obs reward terminated truncated info r te tr
             Hr Hte Htr).
  reflexivity.
Qed.

(** C3: when the environment's step returns something that is not a tuple,
    or a tuple whose length cannot be measured or is neither 4 nor 5, the
    adapter's step returns exactly (raw result, 0.0, False, False, {}). *)
Theorem step_malformed_fallback (action : value) (s s' : S)
    (result : value) :
  env_step env action s = (Ok result, s') ->
  malformed result ->
  step env action s =
    (Ok (tuple [result; VFloat float_zero; VBool false; VBool false;
                VDict []]), s').
Proof.
  intros Henv Hbad.
  rewrite (step_run env _ _ _ _ Henv). cbn [bind].
  rewrite (adapt_step_malformed _ Hbad). reflexivity.
Qed.

(** C4, as amended: terminated and truncated are both true in what the
    adapter's step returns exactly when the environment returned a 5-element
    tuple whose terminated and truncated components are both true; for a
    4-element tuple and for a malformed result they are never both true. *)
Theorem step_both_flags_only_modern (action : value) (s s' : S)
    (result : value) :
  env_step env action s = (Ok result, s') ->
  (forall out s'', step env action s = (Ok out, s'') ->
     exists o r te tr i,
       out = tuple [o; r; VBool te; VBool tr; i]
       /\ (te && tr = true ->
           exists obs reward terminated truncated info,
             result = tuple [obs; reward; terminated; truncated; info]
             /\ truth terminated = Ok true /\ truth truncated = Ok true))
  /\ (forall obs reward terminated truncated info r,
        result = tuple [obs; reward; terminated; truncated; info] ->
        to_float reward = Ok r ->
        truth terminated = Ok true -> truth truncated = Ok true ->
        step env action s =
          (Ok (tuple [obs; VFloat r; VBool true; VBool true;
                      info_or_empty info]), s')).
Proof.
  intros Henv. split.
  - intros out s'' Hstep.
    destruct (step_ok_inv env _ _ _ _ _ _ Henv Hstep) as [Hout _].
    destruct (adapt_step_ok_inv _ _ Hout)
      as [(obs & reward & done & info & r & d & t & _ & _ & _ & _ & ->)
         | [(obs & reward & te & tr & info & r & bte & btr
              & Hres & _ & Hte & Htr & ->)
           | (_ & ->)]].
    + exists obs, (VFloat r), (d && negb t), t, (info_or_empty info).
      split; [reflexivity |].
      destruct d, t; discriminate.
    + exists obs, (VFloat r), bte, btr, (info_or_empty info).
      split; [reflexivity |].
      intros Hboth. apply andb_true_iff in Hboth. destruct Hboth as [-> ->].
      exists obs, reward, te, tr, info. repeat split; assumption.
    + exists result, (VFloat float_zero), false, false, (VDict []).
      split; [reflexivity | discriminate].
  - intros obs reward te tr info r -> Hr Hte Htr.
    rewrite (step_run env _ _ _ _ Henv). cbn [bind].
    rewrite adapt_step_decode. cbn [decode tuple].
    rewrite (modern_step_ok obs reward te tr info r true true Hr Hte Htr).
    reflexivity.
Qed.

(** C5, as amended: the adapter's step raises whatever the environment's
    step raises; on a result the environment returned it raises only from a
    coercion of a 4- or 5-element tuple ([float()] of the reward, or the
    truth test of done, of the truncation flag, of terminated or of
    truncated), with that coercion's exception; on a malformed result it
    returns. *)
Theorem step_raises_only_from_coercions (action : value) (s s' : S)
    (r : outcome value) :
  env_step env action s = (r, s') ->
  (forall e, r = Raise e -> step env action s = (Raise e, s'))
  /\ (forall result e s'',
        r = Ok result -> step env action s = (Raise e, s'') ->
        (exists obs reward done info,
            result = tuple [obs; reward; done; info]
            /\ (truth (truncation_flag info) = Raise e
                \/ truth done = Raise e \/ to_float reward = Raise e))
        \/ (exists obs reward terminated truncated info,
            result = tuple [obs; reward; terminated; truncated; info]
            /\ (to_float reward = Raise e
                \/ truth terminated = Raise e
                \/ truth truncated = Raise e)))
  /\ (forall result,
        r = Ok result -> malformed result ->
        exists out, step env action s = (Ok out, s')).
Proof.
  intros Henv. rewrite (step_run env _ _ _ _ Henv). repeat split.
  - intros e ->. reflexivity.
  - intros result e s'' -> Hstep. cbn [bind] in Hstep.
    injection Hstep as Hraise _.
    apply adapt_step_raise_inv. exact Hraise.
  - intros result -> Hbad. cbn [bind].
    rewrite (adapt_step_malformed _ Hbad). eexists. reflexivity.
Qed.

(** C8: for a 4-element result of the environment, what the adapter's step
    returns never has terminated and truncated both true, whatever done and
    the truncation flag are; a true flag with a false done gives
    terminated = false, truncated = true. *)
Theorem step_legacy_never_both (action : value) (s s' : S)
    (obs reward done info : value) :
  env_step env action s = (Ok (tuple [obs; reward; done; info]), s') ->
  (forall out s'', step env action s = (Ok out, s'') ->
     exists o r te tr i,
       out = tuple [o; r; VBool te; VBool tr; i] /\ te && tr = false)
  /\ (forall r,
        to_float reward = Ok r -> truth done = Ok false ->
        truth (truncation_flag info) = Ok true ->
        step env action s =
          (Ok (tuple [obs; VFloat r; VBool false; VBool true;
                      info_or_empty info]), s')).
Proof.
  intros Henv. split.
  - intros out s'' Hstep.
    destruct (step_ok_inv env _ _ _ _ _ _ Henv Hstep) as [Hout _].
    rewrite adapt_step_decode in Hout. cbn [decode tuple] in Hout.
    rewrite legacy_step_eq in Hout.
    destruct (truth (truncation_flag info)) as [t | e]; [| discriminate Hout].
    destruct (truth done) as [d | e]; [| discriminate Hout].
    destruct (to_float reward) as [r | e]; [| discriminate Hout].
    injection Hout as <-.
    exists obs, (VFloat r), (d && negb t), t, (info_or_empty info).
    split; [reflexivity | destruct d, t; reflexivity].
  - intros r Hr Hd Ht.
    rewrite (step_run env _ _ _ _ Henv). cbn [bind].
    rewrite adapt_step_decode. cbn [decode tuple].
    rewrite (legacy_step_ok obs reward done info r false true Hr Hd Ht).
    reflexivity.
Qed.

End StepContract.

Section StepComponents.

Context {S : Type} (env : Env S).

(** C9: the info component of what the adapter's step returns is always a
    mapping.  An info component of a 4- or 5-element result that is not a
    mapping is replaced by an empty mapping, and in the 4-element case it
    carries no truncation flag, so truncated is false; the fallback for a
    malformed result returns an empty mapping too. *)
Theorem step_info_is_mapping (action : value) (s s' : S) (result : value) :
  env_step env action s = (Ok result, s') ->
  (forall out s'', step env action s = (Ok out, s'') ->
     exists o r te tr entries, out = tuple [o; r; te; tr; VDict entries])
  /\ (forall obs reward done info r d,
        result = tuple [obs; reward; done; info] ->
        is_dict info = false ->
        to_float reward = Ok r -> truth done = Ok d ->
        step env action s =
          (Ok (tuple [obs; VFloat r; VBool d; VBool false; VDict []]), s'))
  /\ (forall obs reward terminated truncated info r te tr,
        result = tuple [obs; reward; terminated; truncated; info] ->
        is_dict info = false ->
        to_float reward = Ok r ->
        truth terminated = Ok te -> truth truncated = Ok tr ->
        step env action s =
          (Ok (tuple [obs; VFloat r; VBool te; VBool tr; VDict []]), s'))
  /\ (malformed result ->
      step env action s =
        (Ok (tuple [result; VFloat float_zero; VBool false; VBool false;
                    VDict []]), s')).
Proof.
  intros Henv. repeat split.
  - intros out s'' Hstep.
    destruct (step_ok_inv env _ _ _ _ _ _ Henv Hstep) as [Hout _].
    assert (Hinfo : forall info, exists entries,
               info_or_empty info = VDict entries).
    { intros info. destruct info; simpl; eexists; reflexivity. }
    destruct (adapt_step_ok_inv _ _ Hout)
      as [(obs & reward & done & info & r & d & t & _ & _ & _ & _ & ->)
         | [(obs & reward & te & tr & info & r & bte & btr
              & _ & _ & _ & _ & ->)
           | (_ & ->)]].
    + destruct (Hinfo info) as [entries ->].
      exists obs, (VFloat r), (VBool (d && negb t)), (VBool t), entries.
      reflexivity.
    + destruct (Hinfo info) as [entries ->].
      exists obs, (VFloat r), (VBool bte), (VBool btr), entries.
      reflexivity.
    + exists result, (VFloat float_zero), (VBool false), (VBool false), [].
      reflexivity.
  - intros obs reward done info r d -> Hinfo Hr Hd.
    rewrite (step_run env _ _ _ _ Henv). cbn [bind].
    rewrite adapt_step_decode. cbn [decode tuple].
    assert (Ht : truth (truncation_flag info) = Ok false).
    { destruct info; try reflexivity. discriminate Hinfo. }
    rewrite (legacy_step_ok obs reward done info r d false Hr Hd Ht).
    unfold info_or_empty. rewrite Hinfo, andb_true_r. reflexivity.
  - intros obs reward te tr info r bte btr -> Hinfo Hr Hte Htr.
    rewrite (step_run env _ _ _ _ Henv). cbn [bind].
    rewrite adapt_step_decode. cbn [decode tuple].
    rewrite (modern_step_ok obs reward te tr info r bte btr Hr Hte Htr).
    unfold info_or_empty. rewrite Hinfo. reflexivity.
  - intros Hbad.
    rewrite (step_run env _ _ _ _ Henv). cbn [bind].
    rewrite (adapt_step_malformed _ Hbad). reflexivity.
Qed.

(** C10: the reward in what the adapter's step returns is a float: on a 4-
    and on a 5-element result it is [float()] of the environment's reward,
    and the fallback for a malformed result (length unmeasurable, or shape
    unknown) returns exactly 0.0. *)
Theorem step_reward_is_float (action : value) (s s' : S) (result : value) :
  env_step env action s = (Ok result, s') ->
  (forall out s'', step env action s = (Ok out, s'') ->
     exists o f te tr i, out = tuple [o; VFloat f; te; tr; i])
  /\ (forall obs reward done info o rw te tr i s'',
        result = tuple [obs; reward; done; info] ->
        step env action s = (Ok (tuple [o; rw; te; tr; i]), s'') ->
        py_float reward = Ok rw /\ is_float rw = true)
  /\ (forall obs reward terminated truncated info o rw te tr i s'',
        result = tuple [obs; reward; terminated; truncated; info] ->
        step env action s = (Ok (tuple [o; rw; te; tr; i]), s'') ->
        py_float reward = Ok rw /\ is_float rw = true)
  /\ (malformed result ->
      step env action s =
        (Ok (tuple [result; VFloat float_zero; VBool false; VBool false;
                    VDict []]), s')).
Proof.
  intros Henv. split; [| split; [| split]].
  - intros out s'' Hstep.
    destruct (step_ok_inv env _ _ _ _ _ _ Henv Hstep) as [Hout _].
    destruct (adapt_step_ok_inv _ _ Hout)
      as [(obs & reward & done & info & r & d & t & _ & _ & _ & _ & ->)
         | [(obs & reward & te & tr & info & r & bte & btr
              & _ & _ & _ & _ & ->)
           | (_ & ->)]];
      do 5 eexists; reflexivity.
  - intros obs reward done info o rw te tr i s'' -> Hstep.
    destruct (step_ok_inv env _ _ _ _ _ _ Henv Hstep) as [Hout _].
    rewrite adapt_step_decode in Hout. cbn [decode tuple] in Hout.
    apply legacy_reward_inv in Hout. exact Hout.
  - intros obs reward terminated truncated info o rw te tr i s'' -> Hstep.
    destruct (step_ok_inv env _ _ _ _ _ _ Henv Hstep) as [Hout _].
    rewrite adapt_step_decode in Hout. cbn [decode tuple] in Hout.
    apply modern_reward_inv in Hout. exact Hout.
  - intros Hbad.
    rewrite (step_run env _ _ _ _ Henv). cbn [bind].
    rewrite (adapt_step_malformed _ Hbad). reflexivity.
Qed.

End StepComponents.

(** ** The reset contract *)

Section ResetContract.

Context {S : Type} (env : Env S).

(** [reset] calls the environment's [reset] once, with the seed and the
    options it was given, and hands on the state the call leaves. *)
Lemma reset_forwards (seed options : value) (s : S) :
  reset env seed options s =
  (bind (fst (env_reset env seed options s)) adapt_reset,
   snd (env_reset env seed options s)).
Proof.
  unfold reset. destruct (env_reset env seed options s) as [r s'].
  reflexivity.
Qed.

(** A 2-element tuple is handed on as (observation, info). *)
Lemma reset_pair (seed options : value) (s s' : S) (obs info : value) :
  env_reset env seed options s = (Ok (tuple [obs; info]), s') ->
  reset env seed options s = (Ok (tuple [obs; info]), s').
Proof. intros H. rewrite (reset_run env _ _ _ _ _ H). reflexivity. Qed.

(** Anything else whose length, if it is a tuple, can be measured becomes
    the observation, with an empty info. *)
Lemma reset_bare (seed options : value) (s s' : S) (result : value) :
  env_reset env seed options s = (Ok result, s') ->
  is_tuple result = false \/ (exists n, len result = Ok n /\ n <> 2) ->
  reset env seed options s = (Ok (tuple [result; VDict []]), s').
Proof.
  intros H Hshape. rewrite (reset_run env _ _ _ _ _ H). cbn [bind].
  unfold adapt_reset.
  destruct (is_tuple result) eqn:Htuple; [| reflexivity].
  destruct Hshape as [Hnot | [n [Hlen Hn]]]; [discriminate Hnot |].
  rewrite Hlen. cbn [bind].
  apply Nat.eqb_neq in Hn. rewrite Hn. reflexivity.
Qed.

(** A failure of the environment's [reset] is the failure of [reset]. *)
Lemma reset_raise (seed options : value) (s s' : S) (e : exn) :
  env_reset env seed options s = (Raise e, s') ->
  reset env seed options s = (Raise e, s').
Proof. intros H. rewrite (reset_run env _ _ _ _ _ H). reflexivity. Qed.

(** The length of a tuple result is measured without a guard: when
    measuring raises, so does [reset]. *)
Lemma reset_unmeasurable (seed options : value) (s s' : S) (e : exn)
    (items : list value) :
  env_reset env seed options s = (Ok (VTuple (Some e) items), s') ->
  reset env seed options s = (Raise e, s').
Proof. intros H. rewrite (reset_run env _ _ _ _ _ H). reflexivity. Qed.

End ResetContract.

(** The arguments reach the environment as they were given. *)
Lemma reset_echo (seed options : value) (calls : nat) :
  reset echo seed options calls =
  (Ok (tuple [VList [seed; options]; VDict []]), Datatypes.S calls).
Proof. reflexivity. Qed.

(** ** Runs of the adapter *)

Lemma step_legacy_flags_witness :
  step scripted VNone [Ok cut_short] =
  (Ok (tuple [VInt 3; VFloat float_one; VBool false; VBool true;
              VDict [(truncation_key, VBool true)]]), []).
Proof.
  exact (proj1 (step_legacy_flags scripted VNone [Ok cut_short] []
                  (VInt 3) (VInt 1) (VBool true)
                  [(truncation_key, VBool true)] float_one true true
                  eq_refl eq_refl eq_refl eq_refl)).
Defined.

Lemma step_modern_passthrough_witness :
  step scripted VNone [Ok both_signalled] =
  (Ok (tuple [VInt 3; VFloat float_one; VBool true; VBool true; VDict []]),
   []).
Proof.
  exact (step_modern_passthrough scripted VNone [Ok both_signalled] []
           (VInt 3) (VFloat float_one) (VBool true) (VBool true) (VDict [])
           float_one true true eq_refl eq_refl eq_refl eq_refl).
Defined.

Lemma step_malformed_fallback_witness :
  step scripted VNone [Ok unmeasurable] =
  (Ok (tuple [unmeasurable; VFloat float_zero; VBool false; VBool false;
              VDict []]), []).
Proof.
  apply (step_malformed_fallback scripted VNone [Ok unmeasurable] []
           unmeasurable).
  - reflexivity.
  - right. left. exists RuntimeError. reflexivity.
Defined.

(** C4, as stated, fails: a 5-element result with both flags true comes
    back with both flags true. *)
Lemma step_both_flags_counterexample :
  step scripted VNone [Ok both_signalled] =
  (Ok (tuple [VInt 3; VFloat float_one; VBool true; VBool true; VDict []]),
   []).
Proof. reflexivity. Qed.

Lemma step_both_flags_only_modern_witness :
  step scripted VNone [Ok both_signalled] =
  (Ok (tuple [VInt 3; VFloat float_one; VBool true; VBool true; VDict []]),
   []).
Proof.
  exact (proj2 (step_both_flags_only_modern scripted VNone
                  [Ok both_signalled] [] both_signalled eq_refl)
           (VInt 3) (VFloat float_one) (VBool true) (VBool true) (VDict [])
           float_one eq_refl eq_refl eq_refl eq_refl).
Defined.

(** C5, as stated, fails: the environment returns a 4-element tuple whose
    reward is [None], and the adapter's step raises [TypeError]. *)
Lemma step_raises_counterexample :
  env_step scripted VNone [Ok no_reward] = (Ok no_reward, [])
  /\ step scripted VNone [Ok no_reward] = (Raise TypeError, []).
Proof. split; reflexivity. Qed.

Lemma step_raises_only_from_coercions_witness :
  step scripted VNone [Raise RuntimeError] = (Raise RuntimeError, []).
Proof.
  exact (proj1 (step_raises_only_from_coercions scripted VNone
                  [Raise RuntimeError] [] (Raise RuntimeError) eq_refl)
           RuntimeError eq_refl).
Defined.

(** C6 fails on a result whose length cannot be measured: [reset] raises
    where [step], which guards the same measure, falls back. *)
Theorem reset_unmeasurable_raises :
  reset scripted VNone VNone [Ok unmeasurable] = (Raise RuntimeError, [])
  /\ step scripted VNone [Ok unmeasurable] =
     (Ok (tuple [unmeasurable; VFloat float_zero; VBool false; VBool false;
                 VDict []]), []).
Proof. split; reflexivity. Qed.

Lemma step_legacy_never_both_witness :
  exists o r te tr i,
    tuple [VInt 3; VFloat float_one; VBool false; VBool true;
           VDict [(truncation_key, VBool true)]]
    = tuple [o; r; VBool te; VBool tr; i]
    /\ te && tr = false.
Proof.
  exact (proj1 (step_legacy_never_both scripted VNone [Ok cut_short] []
                  (VInt 3) (VInt 1) (VBool true)
                  (VDict [(truncation_key, VBool true)]) eq_refl)
           _ [] eq_refl).
Defined.

Lemma step_info_is_mapping_witness :
  step scripted VNone [Ok bad_info] =
  (Ok (tuple [VInt 3; VFloat float_one; VBool true; VBool false; VDict []]),
   []).
Proof.
  exact (proj1 (proj2 (step_info_is_mapping scripted VNone [Ok bad_info] []
                         bad_info eq_refl))
           (VInt 3) (VInt 1) (VBool true) (VList []) float_one true
           eq_refl eq_refl eq_refl eq_refl).
Defined.

Lemma step_reward_is_float_witness :
  exists o f te tr i,
    tuple [VInt 3; VFloat float_one; VBool false; VBool true;
           VDict [(truncation_key, VBool true)]]
    = tuple [o; VFloat f; te; tr; i].
Proof.
  exact (proj1 (step_reward_is_float scripted VNone [Ok cut_short] []
                  cut_short eq_refl)
           _ [] eq_refl).
Defined.

End AdapterFacts.

(** * Properties of the transposer *)

Module TransposeFacts.
Import VecTransposeImage.

(** ** Positions and indices *)

Lemma ravel_lt (n1 n2 n3 i j k : nat) :
  i < n1 -> j < n2 -> k < n3 -> ravel n2 n3 i j k < n1 * n2 * n3.
Proof.
  unfold ravel. intros Hi Hj Hk.
  assert (Hrow : i * n2 + j + 1 <= n1 * n2) by nia.
  assert (Hall : (i * n2 + j + 1) * n3 <= n1 * n2 * n3)
    by (apply Nat.mul_le_mono_r; exact Hrow).
  lia.
Qed.

Lemma ravel_outer (n2 n3 i j k : nat) :
  j < n2 -> k < n3 -> ravel n2 n3 i j k / (n2 * n3) = i.
Proof.
  intros Hj Hk. unfold ravel. symmetry.
  apply (Nat.div_unique _ _ _ (j * n3 + k)); nia.
Qed.

Lemma ravel_middle (n2 n3 i j k : nat) :
  j < n2 -> k < n3 -> (ravel n2 n3 i j k / n3) mod n2 = j.
Proof.
  intros Hj Hk. unfold ravel.
  replace (((i * n2 + j) * n3 + k) / n3) with (i * n2 + j).
  - symmetry. apply (Nat.mod_unique _ _ i); [exact Hj | lia].
  - apply (Nat.div_unique _ _ _ k); [exact Hk | lia].
Qed.

Lemma ravel_inner (n2 n3 i j k : nat) :
  k < n3 -> ravel n2 n3 i j k mod n3 = k.
Proof.
  intros Hk. unfold ravel. symmetry.
  apply (Nat.mod_unique _ _ (i * n2 + j)); [exact Hk | lia].
Qed.

(** The index of a position leads back to the position. *)
Lemma ravel_unravel (n2 n3 p : nat) :
  ravel n2 n3 (p / (n2 * n3)) ((p / n3) mod n2) (p mod n3) = p.
Proof.
  unfold ravel.
  rewrite (Nat.mul_comm n2 n3), <- Nat.Div0.div_div.
  pose proof (Nat.div_mod_eq (p / n3) n2) as Hq.
  pose proof (Nat.div_mod_eq p n3) as Hp.
  nia.
Qed.

Lemma unravel_lt (n1 n2 n3 p : nat) :
  p < n1 * n2 * n3 ->
  p / (n2 * n3) < n1 /\ (p / n3) mod n2 < n2 /\ p mod n3 < n3.
Proof.
  intros Hp.
  assert (H2 : n2 <> 0) by (intros ->; lia).
  assert (H3 : n3 <> 0) by (intros ->; lia).
  repeat split.
  - apply Nat.Div0.div_lt_upper_bound. lia.
  - apply Nat.mod_upper_bound. exact H2.
  - apply Nat.mod_upper_bound. exact H3.
Qed.

(** ** Tabulated arrays *)

Lemma tabulate_length (n1 n2 n3 : nat) (f : nat -> nat -> nat -> Z) :
  List.length (tabulate n1 n2 n3 f) = n1 * n2 * n3.
Proof. unfold tabulate. rewrite length_map, length_seq. reflexivity. Qed.

Lemma tabulate_nth (n1 n2 n3 : nat) (f : nat -> nat -> nat -> Z)
    (p : nat) (d : Z) :
  p < n1 * n2 * n3 ->
  nth p (tabulate n1 n2 n3 f) d
  = f (p / (n2 * n3)) ((p / n3) mod n2) (p mod n3).
Proof.
  intros Hp. unfold tabulate, unravel.
  set (g := fun q : nat => f (q / (n2 * n3)) ((q / n3) mod n2) (q mod n3)).
  rewrite (nth_indep _ d (g 0)).
  - rewrite (map_nth g), seq_nth; [reflexivity | exact Hp].
  - rewrite length_map, length_seq. exact Hp.
Qed.

Lemma tabulate_item (n1 n2 n3 : nat) (f : nat -> nat -> nat -> Z)
    (i j k : nat) :
  i < n1 -> j < n2 -> k < n3 ->
  item n2 n3 (tabulate n1 n2 n3 f) i j k = f i j k.
Proof.
  intros Hi Hj Hk. unfold item.
  rewrite tabulate_nth by (apply ravel_lt; assumption).
  rewrite ravel_outer, ravel_middle, ravel_inner by assumption.
  reflexivity.
Qed.

(** Two tabulations agree when their elements do. *)
Lemma tabulate_ext (n1 n2 n3 : nat) (f g : nat -> nat -> nat -> Z) :
  (forall i j k, i < n1 -> j < n2 -> k < n3 -> f i j k = g i j k) ->
  tabulate n1 n2 n3 f = tabulate n1 n2 n3 g.
Proof.
  intros Hfg. apply (nth_ext _ _ 0%Z 0%Z).
  - rewrite !tabulate_length. reflexivity.
  - intros p Hp. rewrite tabulate_length in Hp.
    rewrite !tabulate_nth by exact Hp.
    destruct (unravel_lt n1 n2 n3 p Hp) as (Hi & Hj & Hk).
    apply Hfg; assumption.
Qed.

(** Reading every element of an array back gives the array. *)
Lemma tabulate_own_items (n1 n2 n3 : nat) (xs : list Z) :
  List.length xs = n1 * n2 * n3 ->
  tabulate n1 n2 n3 (item n2 n3 xs) = xs.
Proof.
  intros Hlen. apply (nth_ext _ _ 0%Z 0%Z).
  - rewrite tabulate_length. symmetry. exact Hlen.
  - intros p Hp. rewrite tabulate_length in Hp.
    rewrite tabulate_nth by exact Hp.
    unfold item. rewrite ravel_unravel. reflexivity.
Qed.

Lemma dims_eqb_refl (xs : list nat) : dims_eqb xs xs = true.
Proof.
  induction xs as [| x xs IH]; simpl; [reflexivity |].
  rewrite Nat.eqb_refl. exact IH.
Qed.

Lemma dims_eqb_eq (xs ys : list nat) : dims_eqb xs ys = true -> xs = ys.
Proof.
  revert ys. induction xs as [| x xs IH]; intros [| y ys]; simpl;
    try discriminate; [reflexivity |].
  intros H. apply andb_true_iff in H. destruct H as [Hxy Hrest].
  apply Nat.eqb_eq in Hxy. rewrite Hxy, (IH ys Hrest). reflexivity.
Qed.

(** ** The round trip *)

(** The transposed observation has the transposed shape and is an array. *)
Lemma transpose_image_shape (h w c : nat) (a b : ndarray) :
  transpose_image h w c a = Ok b -> shape b = [c; h; w] /\ well_formed b.
Proof.
  unfold transpose_image.
  destruct (dims_eqb (shape a) [h; w; c]); [| discriminate].
  intros H. injection H as <-. split; [reflexivity |].
  unfold well_formed. simpl. rewrite tabulate_length. lia.
Qed.

(** An observation of another shape is rejected. *)
Lemma transpose_image_rejects (h w c : nat) (a : ndarray) :
  shape a <> [h; w; c] -> transpose_image h w c a = Raise ValueError.
Proof.
  intros Hshape. unfold transpose_image.
  destruct (dims_eqb (shape a) [h; w; c]) eqn:Heq; [| reflexivity].
  apply dims_eqb_eq in Heq. contradiction.
Qed.

(** C7: an image observation of the configured shape, transposed from
    height x width x channel to channel x height x width and then back,
    is the original array. *)
Theorem transpose_round_trip (h w c : nat) (a : ndarray) :
  well_formed a ->
  shape a = [h; w; c] ->
  (b <- transpose_image h w c a ;; untranspose_image h w c b) = Ok a.
Proof.
  intros Hwf Hshape. unfold well_formed in Hwf.
  destruct a as [dims xs]. simpl in Hwf, Hshape. subst dims.
  unfold transpose_image, untranspose_image. cbn [shape data].
  rewrite dims_eqb_refl. cbn [bind shape data].
  rewrite dims_eqb_refl. f_equal. f_equal.
  simpl in Hwf.
  rewrite (tabulate_ext h w c _ (item w c xs)).
  - apply tabulate_own_items. lia.
  - intros i j k Hi Hj Hk.
    apply (tabulate_item c h w (fun k' i' j' => item w c xs i' j' k'));
      assumption.
Qed.

Lemma transpose_round_trip_witness :
  (b <- transpose_image 2 3 2 sample ;; untranspose_image 2 3 2 b)
  = Ok sample.
Proof.
  apply (transpose_round_trip 2 3 2 sample); reflexivity.
Defined.

(** The channels of the sample come out one after the other. *)
Example transpose_sample :
  transpose_image 2 3 2 sample
  = Ok {| shape := [2; 2; 3];
          data := [1; 3; 5; 7; 9; 11; 2; 4; 6; 8; 10; 12]%Z |}.
Proof. reflexivity. Qed.

(** The same, from the other layout. *)
Lemma untranspose_round_trip (h w c : nat) (b : ndarray) :
  well_formed b ->
  shape b = [c; h; w] ->
  (a <- untranspose_image h w c b ;; transpose_image h w c a) = Ok b.
Proof.
  intros Hwf Hshape. unfold well_formed in Hwf.
  destruct b as [dims xs]. simpl in Hwf, Hshape. subst dims.
  unfold transpose_image, untranspose_image. cbn [shape data].
  rewrite dims_eqb_refl. cbn [bind shape data].
  rewrite dims_eqb_refl. f_equal. f_equal.
  simpl in Hwf.
  rewrite (tabulate_ext c h w _ (item h w xs)).
  - apply tabulate_own_items. lia.
  - intros k i j Hk Hi Hj.
    apply (tabulate_item h w c (fun i' j' k' => item h w xs k' i' j'));
      assumption.
Qed.

End TransposeFacts.

(** * More on the adapter *)

Module AdapterMore.
Import GymCompatibilityWrapper AdapterFacts.

Lemma info_or_empty_dict (info : value) :
  exists entries, info_or_empty info = VDict entries.
Proof. destruct info; simpl; eexists; reflexivity. Qed.

(** What [step] returns is a Gymnasium result with every component of its
    declared type. *)
Lemma adapt_step_typed (result out : value) :
  adapt_step result = Ok out ->
  exists o f te tr entries,
    out = tuple [o; VFloat f; VBool te; VBool tr; VDict entries].
Proof.
  intros Hout.
  destruct (adapt_step_ok_inv _ _ Hout)
    as [(obs & reward & done & info & r & d & t & _ & _ & _ & _ & ->)
       | [(obs & reward & te & tr & info & r & bte & btr
            & _ & _ & _ & _ & ->)
         | (_ & ->)]].
  - destruct (info_or_empty_dict info) as [entries ->].
    exists obs, r, (d && negb t), t, entries. reflexivity.
  - destruct (info_or_empty_dict info) as [entries ->].
    exists obs, r, bte, btr, entries. reflexivity.
  - exists result, float_zero, false, false, []. reflexivity.
Qed.

(** A result [step] has returned is one [step] leaves alone. *)
Lemma adapt_step_fixed (result out : value) :
  adapt_step result = Ok out -> adapt_step out = Ok out.
Proof.
  intros Hout.
  destruct (adapt_step_typed _ _ Hout) as (o & f & te & tr & entries & ->).
  reflexivity.
Qed.

Lemma adapt_step_twice (r : outcome value) :
  bind (bind r adapt_step) adapt_step = bind r adapt_step.
Proof.
  destruct r as [result | e]; [| reflexivity]. cbn [bind].
  destruct (adapt_step result) as [out | e] eqn:Hout; [| reflexivity].
  cbn [bind]. apply (adapt_step_fixed _ _ Hout).
Qed.

Lemma adapt_reset_pair_or_bare (result out : value) :
  adapt_reset result = Ok out ->
  (exists obs info, result = tuple [obs; info] /\ out = result)
  \/ out = tuple [result; VDict []].
Proof.
  unfold adapt_reset.
  destruct result as [| b | z | f | broken items | items | entries | o];
    simpl; try (intros H; injection H as <-; right; reflexivity).
  destruct broken as [e |]; simpl; [discriminate |].
  destruct items as [| a [| b [| c rest]]]; simpl;
    intros H; injection H as <-.
  - right; reflexivity.
  - right; reflexivity.
  - left. exists a, b. split; reflexivity.
  - right; reflexivity.
Qed.

Lemma adapt_reset_fixed (result out : value) :
  adapt_reset result = Ok out -> adapt_reset out = Ok out.
Proof.
  intros H. destruct (adapt_reset_pair_or_bare _ _ H)
    as [(obs & info & -> & ->) | ->]; reflexivity.
Qed.

Lemma adapt_reset_twice (r : outcome value) :
  bind (bind r adapt_reset) adapt_reset = bind r adapt_reset.
Proof.
  destruct r as [result | e]; [| reflexivity]. cbn [bind].
  destruct (adapt_reset result) as [out | e] eqn:Hout; [| reflexivity].
  cbn [bind]. apply (adapt_reset_fixed _ _ Hout).
Qed.

Lemma adapt_reset_raise_inv (result : value) (e : exn) :
  adapt_reset result = Raise e ->
  exists items, result = VTuple (Some e) items.
Proof.
  unfold adapt_reset.
  destruct result as [| b | z | f | broken items | items | entries | o];
    simpl; try discriminate.
  destruct broken as [e' |]; simpl.
  - intros H. injection H as ->. exists items. reflexivity.
  - destruct items as [| a [| b [| c rest]]]; simpl; discriminate.
Qed.

Section Wrapping.

Context {S : Type} (env : Env S).

(** X1: wrapping an environment that is already wrapped changes nothing in
    [step]: the adapter over the adapter returns, or raises, what the
    adapter does, and leaves the same state. *)
Theorem step_wrapped_twice (action : value) (s : S) :
  step (wrapped env) action s = step env action s.
Proof.
  unfold step at 1. cbn [env_step wrapped].
  unfold step. destruct (env_step env action s) as [r s'].
  rewrite adapt_step_twice. reflexivity.
Qed.

(** X2: the same for [reset]. *)
Theorem reset_wrapped_twice (seed options : value) (s : S) :
  reset (wrapped env) seed options s = reset env seed options s.
Proof.
  unfold reset at 1. cbn [env_reset wrapped].
  unfold reset. destruct (env_reset env seed options s) as [r s'].
  rewrite adapt_reset_twice. reflexivity.
Qed.

(** X3: whatever the environment returned, a [step] that returns gives a
    5-element tuple whose reward is a [float], whose terminated and
    truncated are [bool]s and whose info is a [dict], as the signature of
    [step] declares. *)
Theorem step_returns_declared_types (action : value) (s s' s'' : S)
    (result out : value) :
  env_step env action s = (Ok result, s') ->
  step env action s = (Ok out, s'') ->
  s'' = s'
  /\ exists o f te tr entries,
       out = tuple [o; VFloat f; VBool te; VBool tr; VDict entries].
Proof.
  intros Henv Hstep.
  destruct (step_ok_inv env _ _ _ _ _ _ Henv Hstep) as [Hout ->].
  split; [reflexivity | apply (adapt_step_typed _ _ Hout)].
Qed.

(** X4: on a 4-element result the coercions run in the order truncation
    flag, done, reward, and the first that raises decides the exception of
    [step]; when all three succeed [step] returns. *)
Theorem step_legacy_coercion_order (action : value) (s s' : S)
    (obs reward done info : value) :
  env_step env action s = (Ok (tuple [obs; reward; done; info]), s') ->
  step env action s =
    (t <- truth (truncation_flag info) ;;
     d <- truth done ;;
     r <- to_float reward ;;
     Ok (tuple [obs; VFloat r; VBool (d && negb t); VBool t;
                info_or_empty info]),
     s').
Proof.
  intros Henv. rewrite (step_run env _ _ _ _ Henv). cbn [bind].
  rewrite adapt_step_decode. cbn [decode tuple].
  rewrite legacy_step_eq. reflexivity.
Qed.

(** X5: on a 4-element result, a [step] that returns reports the end of the
    episode (terminated or truncated) exactly when done or the truncation
    flag is true; it reports terminated only if done is true. *)
Theorem step_legacy_end_of_episode (action : value) (s s' s'' : S)
    (obs reward done info o r i : value) (te tr d t : bool) :
  env_step env action s = (Ok (tuple [obs; reward; done; info]), s') ->
  step env action s = (Ok (tuple [o; r; VBool te; VBool tr; i]), s'') ->
  truth done = Ok d ->
  truth (truncation_flag info) = Ok t ->
  te || tr = d || t /\ (te = true -> d = true) /\ tr = t.
Proof.
  intros Henv Hstep Hd Ht.
  destruct (step_ok_inv env _ _ _ _ _ _ Henv Hstep) as [Hout _].
  rewrite adapt_step_decode in Hout. cbn [decode tuple] in Hout.
  rewrite legacy_step_eq, Ht, Hd in Hout. cbn [bind] in Hout.
  destruct (to_float reward) as [f | e]; [| discriminate Hout].
  cbn [bind] in Hout. injection Hout as _ _ <- <- _.
  destruct d, t; repeat split; try reflexivity; discriminate.
Qed.

(** X6: [reset] hands a 2-element result on as it is, whatever its second
    component: unlike [step], it does not replace an info that is not a
    mapping. *)
Theorem reset_pair_unchanged (seed options : value) (s s' : S)
    (obs info : value) :
  env_reset env seed options s = (Ok (tuple [obs; info]), s') ->
  reset env seed options s = (Ok (tuple [obs; info]), s').
Proof. intros H. rewrite (reset_run env _ _ _ _ _ H). reflexivity. Qed.

(** X7: a result of [reset] that is not a tuple, or a tuple whose measured
    length is not 2, becomes the observation, with an empty info. *)
Theorem reset_bare_observation (seed options : value) (s s' : S)
    (result : value) :
  env_reset env seed options s = (Ok result, s') ->
  is_tuple result = false \/ (exists n, len result = Ok n /\ n <> 2) ->
  reset env seed options s = (Ok (tuple [result; VDict []]), s').
Proof.
  intros H Hshape. rewrite (reset_run env _ _ _ _ _ H). cbn [bind].
  unfold adapt_reset.
  destruct (is_tuple result) eqn:Htuple; [| reflexivity].
  destruct Hshape as [Hnot | [n [Hlen Hn]]]; [discriminate Hnot |].
  rewrite Hlen. cbn [bind].
  apply Nat.eqb_neq in Hn. rewrite Hn. reflexivity.
Qed.

(** X8: [reset] raises only what the environment's [reset] raised, or what
    measuring the length of a tuple it returned raised; nothing else in
    [reset] can fail. *)
Theorem reset_raises_only (seed options : value) (s s' s'' : S)
    (r : outcome value) (e : exn) :
  env_reset env seed options s = (r, s') ->
  reset env seed options s = (Raise e, s'') ->
  s'' = s'
  /\ (r = Raise e \/ exists items, r = Ok (VTuple (Some e) items)).
Proof.
  intros Henv Hreset. rewrite (reset_run env _ _ _ _ _ Henv) in Hreset.
  injection Hreset as Hraise <-. split; [reflexivity |].
  destruct r as [result | e']; cbn [bind] in Hraise.
  - right. destruct (adapt_reset_raise_inv _ _ Hraise) as [items ->].
    exists items. reflexivity.
  - left. exact Hraise.
Qed.

(** X9: a [reset] that returns gives a 2-element tuple: the pair the
    environment returned, or the environment's result with an empty
    info. *)
Theorem reset_returns_pair (seed options : value) (s s' s'' : S)
    (result out : value) :
  env_reset env seed options s = (Ok result, s') ->
  reset env seed options s = (Ok out, s'') ->
  s'' = s'
  /\ ((exists obs info, result = tuple [obs; info] /\ out = result)
      \/ out = tuple [result; VDict []]).
Proof.
  intros Henv Hreset. rewrite (reset_run env _ _ _ _ _ Henv) in Hreset.
  cbn [bind] in Hreset. injection Hreset as Hout <-.
  split; [reflexivity | apply (adapt_reset_pair_or_bare _ _ Hout)].
Qed.

End Wrapping.

Lemma step_returns_declared_types_witness :
  ([] : list (outcome value)) = []
  /\ exists o f te tr entries,
       tuple [VInt 3; VFloat float_one; VBool true; VBool false; VDict []]
       = tuple [o; VFloat f; VBool te; VBool tr; VDict entries].
Proof.
  exact (step_returns_declared_types scripted VNone [Ok bad_info] [] []
           bad_info _ eq_refl eq_refl).
Defined.

Lemma step_legacy_coercion_order_witness :
  step scripted VNone [Ok two_failures] = (Raise ValueError, []).
Proof.
  exact (step_legacy_coercion_order scripted VNone [Ok two_failures] []
           (VInt 3) VNone (VBool true)
           (VDict [(truncation_key, stubborn)]) eq_refl).
Defined.

Lemma step_legacy_end_of_episode_witness :
  false || true = false || true /\ (false = true -> false = true)
  /\ true = true.
Proof.
  exact (step_legacy_end_of_episode scripted VNone [Ok cut_not_done] [] []
           (VInt 3) (VInt 1) (VBool false)
           (VDict [(truncation_key, VInt 1)])
           (VInt 3) (VFloat float_one)
           (VDict [(truncation_key, VInt 1)])
           false true false true eq_refl eq_refl eq_refl eq_refl).
Defined.

Lemma reset_pair_unchanged_witness :
  reset scripted VNone VNone [Ok pair_without_mapping] =
  (Ok (tuple [VInt 3; VNone]), []).
Proof.
  exact (reset_pair_unchanged scripted VNone VNone
           [Ok pair_without_mapping] [] (VInt 3) VNone eq_refl).
Defined.

Lemma reset_bare_observation_witness :
  reset scripted VNone VNone [Ok cut_short] =
  (Ok (tuple [cut_short; VDict []]), []).
Proof.
  apply (reset_bare_observation scripted VNone VNone [Ok cut_short] []
           cut_short).
  - reflexivity.
  - right. exists 4. split; [reflexivity | discriminate].
Defined.

Lemma reset_raises_only_witness :
  ([] : list (outcome value)) = []
  /\ (Ok unmeasurable = Raise RuntimeError
      \/ exists items, Ok unmeasurable = Ok (VTuple (Some RuntimeError) items)).
Proof.
  exact (reset_raises_only scripted VNone VNone [Ok unmeasurable] [] []
           (Ok unmeasurable) RuntimeError eq_refl eq_refl).
Defined.

Lemma reset_returns_pair_witness :
  ([] : list (outcome value)) = []
  /\ ((exists obs info,
          pair_without_mapping = tuple [obs; info]
          /\ tuple [VInt 3; VNone] = pair_without_mapping)
      \/ tuple [VInt 3; VNone] = tuple [pair_without_mapping; VDict []]).
Proof.
  exact (reset_returns_pair scripted VNone VNone
           [Ok pair_without_mapping] [] [] pair_without_mapping _
           eq_refl eq_refl).
Defined.

End AdapterMore.

(** * Lidar scans *)

Module LidarFacts.
Import Lidar.
Local Open Scope lidar_scope.

(** ** Grouping a flat list *)

Lemma range_by_three (n : nat) :
  range 0 n 3 = map (fun k => k * 3) (seq 0 ((n + 2) / 3)).
Proof.
  unfold range. rewrite Nat.sub_0_r. reflexivity.
Qed.

Lemma flatten_length (A : Type) (ts : list (A * A * A)) :
  List.length (flatten ts) = 3 * List.length ts.
Proof.
  induction ts as [| [[x y] z] ts IH]; [reflexivity |].
  change (flatten ((x, y, z) :: ts)) with (x :: y :: z :: flatten ts).
  cbn [List.length]. rewrite IH. lia.
Qed.

Lemma getitem_after (A : Type) (pre : list A) (x : A) (rest : list A) :
  getitem (pre ++ x :: rest) (List.length pre) = Done x.
Proof.
  unfold getitem. rewrite nth_error_app2 by lia.
  rewrite Nat.sub_diag. reflexivity.
Qed.

Lemma getitem_beyond (A : Type) (xs : list A) (i : nat) :
  List.length xs <= i -> getitem xs i = Failed Index_error.
Proof.
  intros H. unfold getitem.
  rewrite (proj2 (nth_error_None xs i) H). reflexivity.
Qed.

(** The three reads of one group. *)
Lemma group_after (A : Type) (pre : list A) (x y z : A) (rest : list A) :
  getitem (pre ++ x :: y :: z :: rest) (List.length pre) = Done x
  /\ getitem (pre ++ x :: y :: z :: rest) (List.length pre + 1) = Done y
  /\ getitem (pre ++ x :: y :: z :: rest) (List.length pre + 2) = Done z.
Proof.
  repeat split.
  - apply getitem_after.
  - replace (pre ++ x :: y :: z :: rest) with ((pre ++ [x]) ++ y :: z :: rest)
      by (rewrite <- app_assoc; reflexivity).
    replace (List.length pre + 1) with (List.length (pre ++ [x]))
      by (rewrite length_app; reflexivity).
    apply getitem_after.
  - replace (pre ++ x :: y :: z :: rest) with ((pre ++ [x; y]) ++ z :: rest)
      by (rewrite <- app_assoc; reflexivity).
    replace (List.length pre + 2) with (List.length (pre ++ [x; y]))
      by (rewrite length_app; reflexivity).
    apply getitem_after.
Qed.

Lemma starts_shift (base n : nat) :
  map (fun k => base + k * 3) (seq 1 n)
  = map (fun k => base + 3 + k * 3) (seq 0 n).
Proof.
  rewrite <- seq_shift, map_map. apply map_ext. intros k. lia.
Qed.

(** Grouping the points that follow a prefix, whatever follows them. *)
Lemma triples_at_flatten (A : Type) (ts : list (A * A * A))
    (pre tail : list A) :
  triples_at (pre ++ flatten ts ++ tail)
    (map (fun k => List.length pre + k * 3) (seq 0 (List.length ts)))
  = Done ts.
Proof.
  revert pre. induction ts as [| [[x y] z] ts IH]; intros pre.
  - reflexivity.
  - cbn [List.length seq map]. rewrite starts_shift.
    cbn [triples_at flatten flat_map app].
    rewrite Nat.mul_0_l, Nat.add_0_r.
    destruct (group_after A pre x y z (flatten ts ++ tail))
      as (Hx & Hy & Hz).
    unfold flatten in *. rewrite Hx, Hy, Hz. cbn [rbind].
    specialize (IH (pre ++ [x; y; z])).
    rewrite <- app_assoc in IH. cbn [app] in IH.
    rewrite length_app in IH. cbn [List.length] in IH.
    rewrite IH. reflexivity.
Qed.

(** One more group than there are whole points fails. *)
Lemma triples_at_ragged (A : Type) (ts : list (A * A * A))
    (pre tail : list A) :
  0 < List.length tail < 3 ->
  triples_at (pre ++ flatten ts ++ tail)
    (map (fun k => List.length pre + k * 3) (seq 0 (List.length ts + 1)))
  = Failed Index_error.
Proof.
  intros Htail. revert pre. induction ts as [| [[x y] z] ts IH]; intros pre.
  - cbn [List.length seq map Nat.add triples_at flatten flat_map app].
    rewrite Nat.mul_0_l, Nat.add_0_r.
    destruct tail as [| a [| b [| c rest]]]; cbn [List.length] in Htail;
      try lia.
    + rewrite getitem_after. cbn [rbind].
      rewrite getitem_beyond; [reflexivity |].
      rewrite length_app. cbn [List.length]. lia.
    + rewrite getitem_after. cbn [rbind].
      replace (pre ++ [a; b]) with ((pre ++ [a]) ++ [b])
        by (rewrite <- app_assoc; reflexivity).
      replace (List.length pre + 1) with (List.length (pre ++ [a]))
        by (rewrite length_app; reflexivity).
      rewrite getitem_after. cbn [rbind].
      rewrite getitem_beyond; [reflexivity |].
      rewrite !length_app. cbn [List.length]. lia.
  - cbn [List.length Nat.add seq map]. rewrite starts_shift.
    cbn [triples_at flatten flat_map app].
    rewrite Nat.mul_0_l, Nat.add_0_r.
    destruct (group_after A pre x y z (flatten ts ++ tail))
      as (Hx & Hy & Hz).
    unfold flatten in *. rewrite Hx, Hy, Hz. cbn [rbind].
    specialize (IH (pre ++ [x; y; z])).
    rewrite <- app_assoc in IH. cbn [app] in IH.
    rewrite length_app in IH. cbn [List.length] in IH.
    rewrite IH. reflexivity.
Qed.

(** Every list is whole points followed by fewer than three coordinates. *)
Lemma whole_and_rest (A : Type) (xs : list A) :
  xs = flatten (fst (chunks xs)) ++ snd (chunks xs)
  /\ List.length (snd (chunks xs)) < 3.
Proof.
  assert (H : forall n (ys : list A), List.length ys <= n ->
             ys = flatten (fst (chunks ys)) ++ snd (chunks ys)
             /\ List.length (snd (chunks ys)) < 3).
  { induction n as [| n IH]; intros ys Hn.
    - destruct ys; [| simpl in Hn; lia]. simpl. split; [reflexivity | lia].
    - destruct ys as [| x [| y [| z rest]]]; simpl;
        try (split; [reflexivity | lia]).
      destruct (IH rest) as [Heq Hlt]; [simpl in Hn; lia |].
      destruct (chunks rest) as [ts tl]. simpl in *.
      split; [congruence | exact Hlt]. }
  apply (H (List.length xs)). lia.
Qed.

Lemma count_whole (m : nat) : (3 * m + 2) / 3 = m.
Proof.
  symmetry. apply (Nat.div_unique _ _ _ 2); lia.
Qed.

Lemma count_ragged (m r : nat) : 0 < r < 3 -> (3 * m + r + 2) / 3 = m + 1.
Proof.
  intros Hr. symmetry. apply (Nat.div_unique _ _ _ (r - 1)); lia.
Qed.

Lemma group_points_whole (A : Type) (ts : list (A * A * A)) :
  group_points (flatten ts) = Done ts.
Proof.
  unfold group_points. rewrite range_by_three, flatten_length, count_whole.
  pose proof (triples_at_flatten A ts [] []) as H.
  rewrite app_nil_r in H. exact H.
Qed.

Lemma group_points_ragged (A : Type) (ts : list (A * A * A))
    (tail : list A) :
  0 < List.length tail < 3 ->
  group_points (flatten ts ++ tail) = Failed Index_error.
Proof.
  intros Htail. unfold group_points.
  rewrite range_by_three, length_app, flatten_length.
  rewrite (count_ragged _ _ Htail).
  exact (triples_at_ragged A ts [] tail Htail).
Qed.

Lemma group_points_not_multiple (A : Type) (points : list A) :
  List.length points mod 3 <> 0 ->
  group_points points = Failed Index_error.
Proof.
  intros Hne.
  destruct (whole_and_rest A points) as [Heq Hlt].
  set (ts := fst (chunks points)) in *.
  set (tail := snd (chunks points)) in *.
  assert (Hlen : List.length points = 3 * List.length ts + List.length tail).
  { rewrite Heq at 1. rewrite length_app, flatten_length. reflexivity. }
  assert (Hmod : List.length points mod 3 = List.length tail).
  { symmetry. apply (Nat.mod_unique _ _ (List.length ts)); lia. }
  rewrite Heq. apply group_points_ragged. lia.
Qed.

(** X10: the comprehension returns a list of points exactly when the flat
    list is the coordinates of these points, one after the other: nothing
    is dropped, padded or reordered. *)
Theorem group_points_iff_flatten (A : Type) (points : list A)
    (cloud : list (A * A * A)) :
  group_points points = Done cloud <-> points = flatten cloud.
Proof.
  split.
  - intros Hgroup.
    destruct (whole_and_rest A points) as [Heq Hlt].
    destruct (snd (chunks points)) as [| a tail] eqn:Htl.
    + rewrite app_nil_r in Heq. rewrite Heq in Hgroup.
      rewrite group_points_whole in Hgroup. injection Hgroup as <-.
      exact Heq.
    + rewrite Heq, group_points_ragged in Hgroup; [discriminate Hgroup |].
      cbn [List.length] in *. lia.
  - intros ->. apply group_points_whole.
Qed.

(** X11: the comprehension raises [IndexError] exactly when the length of
    the flat list is not a multiple of 3; a trailing incomplete point is not
    dropped. *)
Theorem group_points_fails_iff_ragged (A : Type) (points : list A) :
  group_points points = Failed Index_error
  <-> List.length points mod 3 <> 0.
Proof.
  split; [| apply group_points_not_multiple].
  intros Hfail Hmod.
  destruct (whole_and_rest A points) as [Heq Hlt].
  set (ts := fst (chunks points)) in *.
  set (tail := snd (chunks points)) in *.
  assert (Hlen : List.length points = 3 * List.length ts + List.length tail).
  { rewrite Heq at 1. rewrite length_app, flatten_length. reflexivity. }
  assert (Htail : List.length tail = List.length points mod 3).
  { apply (Nat.mod_unique _ _ (List.length ts)); lia. }
  destruct tail; [| cbn [List.length] in Htail; lia].
  rewrite app_nil_r in Heq. rewrite Heq, group_points_whole in Hfail.
  discriminate Hfail.
Qed.

(** ** [get_lidar_reading] *)

Lemma whole_count (m : nat) : 3 * m / 3 = m.
Proof. rewrite Nat.mul_comm. apply Nat.div_mul. discriminate. Qed.

Section Reading.

Context {C : Type} (cl : Client C).

(** X12: when the scan is the coordinates of at least one point, and the
    client's calls succeed, [get_lidar_reading] returns these points with
    the time stamp of the scan, after giving control back to the keyboard
    ([enableApiControl(False)] is its last call). *)
Theorem get_lidar_reading_whole (w : world C) (c1 c2 c3 : C)
    (cloud : list (pyfloat * pyfloat * pyfloat)) (stamp : Z) :
  cloud <> [] ->
  enableApiControl cl true (client w) = (Done tt, c1) ->
  getLidarData cl c1 =
    (Done {| point_cloud := Points (flatten cloud); time_stamp := stamp |},
     c2) ->
  enableApiControl cl false c2 = (Done tt, c3) ->
  get_lidar_reading cl w =
    (Done (cloud, stamp),
     {| client := c3;
        printed := printed w ++ [Retrieved (List.length cloud) stamp] |}).
Proof.
  intros Hne Hon Hget Hoff.
  unfold get_lidar_reading, mbind, call. rewrite Hon. cbn [client printed].
  rewrite Hget. cbn [client printed point_cloud time_stamp has_points].
  rewrite flatten_length.
  destruct cloud as [| p rest]; [contradiction |].
  cbn [List.length Nat.mul Nat.add Nat.eqb negb].
  unfold as_list, ret, print, lift. cbn [client printed].
  rewrite group_points_whole, flatten_length, whole_count.
  rewrite Hoff. reflexivity.
Qed.

(** X13: when the length of the scan is not a multiple of 3,
    [get_lidar_reading] raises [IndexError] from the comprehension and makes
    no further call of the client: control is not given back. *)
Theorem get_lidar_reading_ragged (w : world C) (c1 c2 : C)
    (points : list pyfloat) (stamp : Z) :
  List.length points mod 3 <> 0 ->
  enableApiControl cl true (client w) = (Done tt, c1) ->
  getLidarData cl c1 =
    (Done {| point_cloud := Points points; time_stamp := stamp |}, c2) ->
  get_lidar_reading cl w =
    (Failed Index_error,
     {| client := c2;
        printed := printed w ++ [Retrieved (List.length points / 3) stamp] |}).
Proof.
  intros Hmod Hon Hget.
  unfold get_lidar_reading, mbind, call. rewrite Hon. cbn [client printed].
  rewrite Hget. cbn [client printed point_cloud time_stamp has_points].
  destruct points as [| x rest] eqn:Hpoints; [simpl in Hmod; lia |].
  rewrite <- Hpoints in *.
  replace (negb (Nat.eqb (List.length points) 0)) with true
    by (rewrite Hpoints; reflexivity).
  unfold as_list, ret, print, lift. cbn [client printed].
  rewrite (group_points_not_multiple _ _ Hmod). reflexivity.
Qed.

(** X14: when the reading has no points (an empty list, or the float 0.0 of
    a reading without a scan), [get_lidar_reading] gives control back and
    then raises [ValueError]. *)
Theorem get_lidar_reading_empty (w : world C) (c1 c2 c3 : C)
    (data : reading) :
  has_points (point_cloud data) = false ->
  enableApiControl cl true (client w) = (Done tt, c1) ->
  getLidarData cl c1 = (Done data, c2) ->
  enableApiControl cl false c2 = (Done tt, c3) ->
  get_lidar_reading cl w =
    (Failed Value_error, {| client := c3; printed := printed w |}).
Proof.
  intros Hnone Hon Hget Hoff.
  unfold get_lidar_reading, mbind, call. rewrite Hon. cbn [client printed].
  rewrite Hget. cbn [client printed]. rewrite Hnone.
  unfold raise. cbn [client printed]. rewrite Hoff. reflexivity.
Qed.

End Reading.

Lemma get_lidar_reading_whole_witness :
  get_lidar_reading sim
    {| client := (false, [one_point]); printed := [] |}
  = (Done ([(float_one, float_zero, float_one)], 7%Z),
     {| client := (false, []); printed := [Retrieved 1 7] |}).
Proof.
  apply (get_lidar_reading_whole sim
           {| client := (false, [one_point]); printed := [] |}
           (true, [one_point]) (true, []) (false, [])
           [(float_one, float_zero, float_one)] 7%Z).
  - discriminate.
  - reflexivity.
  - reflexivity.
  - reflexivity.
Defined.

Lemma get_lidar_reading_ragged_witness :
  get_lidar_reading sim
    {| client := (false, [cut_scan]); printed := [] |}
  = (Failed Index_error,
     {| client := (true, []); printed := [Retrieved 1 8] |}).
Proof.
  apply (get_lidar_reading_ragged sim
           {| client := (false, [cut_scan]); printed := [] |}
           (true, [cut_scan]) (true, [])
           [float_one; float_zero; float_one; float_one] 8%Z).
  - discriminate.
  - reflexivity.
  - reflexivity.
Defined.

Lemma get_lidar_reading_empty_witness :
  get_lidar_reading sim
    {| client := (false, [no_scan]); printed := [] |}
  = (Failed Value_error, {| client := (false, []); printed := [] |}).
Proof.
  apply (get_lidar_reading_empty sim
           {| client := (false, [no_scan]); printed := [] |}
           (true, [no_scan]) (true, []) (false, []) no_scan);
    reflexivity.
Defined.

(** ** [lidar-dump] *)

Lemma append_assoc (a b c : string) :
  String.append (String.append a b) c = String.append a (String.append b c).
Proof.
  induction a as [| ch a IH]; simpl; [reflexivity |].
  rewrite IH. reflexivity.
Qed.

Lemma append_empty (a : string) : String.append a EmptyString = a.
Proof.
  induction a as [| ch a IH]; simpl; [reflexivity |].
  rewrite IH. reflexivity.
Qed.

Section Dumping.

Variable show : pyfloat -> string.

(** The loop over the whole points that follow a prefix writes their rows
    and goes on. *)
Lemma write_rows_whole (cloud : list (pyfloat * pyfloat * pyfloat))
    (pre tail : list pyfloat) (more : list nat) (content : string) :
  write_rows show (pre ++ flatten cloud ++ tail)
    (map (fun k => List.length pre + k * 3) (seq 0 (List.length cloud))
     ++ more) content
  = write_rows show (pre ++ flatten cloud ++ tail) more
      (String.append content (rows show cloud)).
Proof.
  revert pre content. induction cloud as [| [[x y] z] cloud IH];
    intros pre content.
  - cbn [List.length seq map app rows fold_right].
    rewrite append_empty. reflexivity.
  - cbn [List.length seq map]. rewrite starts_shift.
    cbn [app write_rows].
    change (flatten ((x, y, z) :: cloud)) with (x :: y :: z :: flatten cloud).
    cbn [app]. rewrite Nat.mul_0_l, Nat.add_0_r.
    destruct (group_after _ pre x y z (flatten cloud ++ tail))
      as (Hx & Hy & Hz).
    rewrite Hx, Hy, Hz. cbn [rbind].
    specialize (IH (pre ++ [x; y; z]) (String.append content (row show x y z))).
    rewrite <- app_assoc in IH. cbn [app] in IH.
    rewrite length_app in IH. cbn [List.length] in IH.
    rewrite IH. cbn [rows fold_right]. rewrite append_assoc. reflexivity.
Qed.

(** The read of a point that is not whole fails. *)
Lemma incomplete_point (pre tail : list pyfloat) :
  0 < List.length tail < 3 ->
  (x <- getitem (pre ++ tail) (List.length pre) ;;
   y <- getitem (pre ++ tail) (List.length pre + 1) ;;
   z <- getitem (pre ++ tail) (List.length pre + 2) ;;
   Done (x, y, z)) = Failed Index_error.
Proof.
  intros Htail.
  destruct tail as [| a [| b [| c rest]]]; cbn [List.length] in Htail;
    try lia.
  - rewrite getitem_after. cbn [rbind].
    rewrite getitem_beyond; [reflexivity |].
    rewrite length_app. cbn [List.length]. lia.
  - rewrite getitem_after. cbn [rbind].
    replace (pre ++ [a; b]) with ((pre ++ [a]) ++ [b])
      by (rewrite <- app_assoc; reflexivity).
    replace (List.length pre + 1) with (List.length (pre ++ [a]))
      by (rewrite length_app; reflexivity).
    rewrite getitem_after. cbn [rbind].
    rewrite getitem_beyond; [reflexivity |].
    rewrite !length_app. cbn [List.length]. lia.
Qed.

Lemma write_rows_all (cloud : list (pyfloat * pyfloat * pyfloat)) :
  write_rows show (flatten cloud)
    (range 0 (List.length (flatten cloud)) 3) header
  = (Done tt, String.append header (rows show cloud)).
Proof.
  rewrite range_by_three, flatten_length, count_whole.
  pose proof (write_rows_whole cloud [] [] [] header) as H.
  rewrite !app_nil_r in H. exact H.
Qed.

Lemma write_rows_cut (cloud : list (pyfloat * pyfloat * pyfloat))
    (tail : list pyfloat) :
  0 < List.length tail < 3 ->
  write_rows show (flatten cloud ++ tail)
    (range 0 (List.length (flatten cloud ++ tail)) 3) header
  = (Failed Index_error, String.append header (rows show cloud)).
Proof.
  intros Htail.
  rewrite range_by_three, length_app, flatten_length.
  rewrite (count_ragged _ _ Htail), seq_app, map_app.
  pose proof (write_rows_whole cloud [] tail
                (map (fun k => k * 3) (seq (0 + List.length cloud) 1))
                header) as H.
  cbn [app List.length Nat.add] in H. cbn [Nat.add]. rewrite H.
  cbn [seq map write_rows].
  pose proof (incomplete_point (flatten cloud) tail Htail) as Hcut.
  rewrite flatten_length in Hcut.
  replace (List.length cloud * 3) with (3 * List.length cloud) by lia.
  rewrite Hcut. reflexivity.
Qed.

(** X15: [lidar-dump] leaves without touching the output file, with exit
    code 1, when the data has no [point_cloud], or one that is neither a
    list nor a tuple, or one of fewer than 3 coordinates. *)
Theorem lidar_dump_no_points (data : option cloud) (file : option string) :
  match data with
  | Some (Points pts) | Some (Packed pts) => List.length pts < 3
  | Some (Bare _) | None => True
  end ->
  lidar_dump show data file = (Failed (Exit 1), file, [No_points]).
Proof.
  intros Hguard. unfold lidar_dump.
  destruct data as [[pts | pts | x] |]; try reflexivity;
    apply Nat.ltb_lt in Hguard; rewrite Hguard; reflexivity.
Qed.

(** X16: on the coordinates of at least one point, [lidar-dump] replaces
    the output file by the header line followed by one row per point, in
    order, and reports the number of points. *)
Theorem lidar_dump_whole (cloud : list (pyfloat * pyfloat * pyfloat))
    (file : option string) :
  cloud <> [] ->
  lidar_dump show (Some (Points (flatten cloud))) file =
    (Done tt, Some (String.append header (rows show cloud)),
     [Wrote (List.length cloud)]).
Proof.
  intros Hne. unfold lidar_dump.
  replace (Nat.ltb (List.length (flatten cloud)) 3) with false.
  - rewrite write_rows_all, flatten_length, whole_count. reflexivity.
  - symmetry. apply Nat.ltb_ge. rewrite flatten_length.
    destruct cloud; [contradiction | cbn [List.length]; lia].
Qed.

(** X17: on a list of at least 3 coordinates whose length is not a multiple
    of 3, [lidar-dump] raises [IndexError] after it has replaced the output
    file: the file is left with the header and the rows of the whole points,
    and nothing is reported. *)
Theorem lidar_dump_cut (cloud : list (pyfloat * pyfloat * pyfloat))
    (tail : list pyfloat) (file : option string) :
  cloud <> [] ->
  0 < List.length tail < 3 ->
  lidar_dump show (Some (Points (flatten cloud ++ tail))) file =
    (Failed Index_error, Some (String.append header (rows show cloud)), []).
Proof.
  intros Hne Htail. unfold lidar_dump.
  replace (Nat.ltb (List.length (flatten cloud ++ tail)) 3) with false.
  - rewrite (write_rows_cut cloud tail Htail). reflexivity.
  - symmetry. apply Nat.ltb_ge. rewrite length_app, flatten_length.
    destruct cloud; [contradiction | cbn [List.length]; lia].
Qed.

End Dumping.

Lemma lidar_dump_no_points_witness :
  lidar_dump mark (Some (Bare float_zero)) (Some "old"%string)
  = (Failed (Exit 1), Some "old"%string, [No_points]).
Proof.
  exact (lidar_dump_no_points mark (Some (Bare float_zero))
           (Some "old"%string) I).
Defined.

Lemma lidar_dump_whole_witness :
  lidar_dump mark
    (Some (Points (flatten [(float_one, float_zero, float_one)])))
    (Some "old"%string)
  = (Done tt,
     Some (String.append header
             (rows mark [(float_one, float_zero, float_one)])),
     [Wrote 1]).
Proof.
  apply (lidar_dump_whole mark [(float_one, float_zero, float_one)]
           (Some "old"%string)).
  discriminate.
Defined.

Lemma lidar_dump_cut_witness :
  lidar_dump mark
    (Some (Points (flatten [(float_one, float_zero, float_one)]
                   ++ [float_one])))
    (Some "old"%string)
  = (Failed Index_error,
     Some (String.append header
             (rows mark [(float_one, float_zero, float_one)])),
     []).
Proof.
  apply (lidar_dump_cut mark [(float_one, float_zero, float_one)]
           [float_one] (Some "old"%string)).
  - discriminate.
  - cbn [List.length]. lia.
Defined.

End LidarFacts.

(** * Running a script under environment overrides *)

Module CliFacts.
Import Cli.

Lemma env_set_same (k v : string) (env : environ) : env_set k v env k = Some v.
Proof. unfold env_set. rewrite String.eqb_refl. reflexivity. Qed.

Lemma env_set_other (k v k' : string) (env : environ) :
  k' <> k -> env_set k v env k' = env k'.
Proof.
  intros H. unfold env_set. apply String.eqb_neq in H. rewrite H.
  reflexivity.
Qed.

Lemma env_pop_same (k : string) (env : environ) : env_pop k env k = None.
Proof. unfold env_pop. rewrite String.eqb_refl. reflexivity. Qed.

Lemma env_pop_other (k k' : string) (env : environ) :
  k' <> k -> env_pop k env k' = env k'.
Proof.
  intros H. unfold env_pop. apply String.eqb_neq in H. rewrite H.
  reflexivity.
Qed.

(** A variable met for the first time is remembered last. *)
Lemma remember_new (k : string) (v : option string)
    (prev : list (string * option string)) :
  ~ In k (map fst prev) -> remember k v prev = prev ++ [(k, v)].
Proof.
  induction prev as [| [k' v'] prev IH]; simpl; intros Hnew.
  - reflexivity.
  - destruct (String.eqb_spec k' k) as [-> | Hne].
    + exfalso. apply Hnew. left. reflexivity.
    + rewrite IH; [reflexivity |]. intros Hin. apply Hnew. right. exact Hin.
Qed.

Section Restoring.

Variable accepts : string -> string -> bool.

(** The [finally] clause gives every remembered variable its remembered
    value and touches no other. *)
Lemma restore_all (prev : list (string * option string)) (env : environ) :
  NoDup (map fst prev) ->
  (forall k v, In (k, Some v) prev -> accepts k v = true) ->
  exists env',
    restore accepts prev env = (true, env')
    /\ (forall k old, In (k, old) prev -> env' k = old)
    /\ (forall k, ~ In k (map fst prev) -> env' k = env k).
Proof.
  revert env. induction prev as [| [k old] prev IH]; intros env Hnodup Hok.
  - exists env.
    split; [reflexivity | split; [intros k old [] | reflexivity]].
  - cbn [map fst] in Hnodup. apply NoDup_cons_iff in Hnodup.
    destruct Hnodup as [Hfresh Hnodup].
    assert (Hok' : forall k' v, In (k', Some v) prev -> accepts k' v = true).
    { intros k' v Hin. apply Hok. right. exact Hin. }
    set (env1 := match old with
                 | Some v => env_set k v env
                 | None => env_pop k env
                 end).
    destruct (IH env1 Hnodup Hok') as (env' & Hrun & Hkeep & Hframe).
    exists env'. split; [| split].
    + cbn [restore]. destruct old as [v |].
      * rewrite (Hok k v (or_introl eq_refl)). exact Hrun.
      * exact Hrun.
    + intros k' old' [Heq | Hin].
      * injection Heq as <- <-. rewrite (Hframe k Hfresh).
        unfold env1. destruct old as [v |];
          [apply env_set_same | apply env_pop_same].
      * apply (Hkeep k' old' Hin).
    + intros k' Hout. cbn [map fst In] in Hout.
      rewrite (Hframe k'); [| intros Hin; apply Hout; right; exact Hin].
      assert (Hne : k' <> k) by (intros ->; apply Hout; left; reflexivity).
      unfold env1. destruct old as [v |];
        [apply env_set_other | apply env_pop_other]; exact Hne.
Qed.

Lemma remember_keeps (k : string) (v : option string)
    (prev : list (string * option string)) (x : string) :
  In x (map fst prev) -> In x (map fst (remember k v prev)).
Proof.
  induction prev as [| [k' v'] prev IH]; simpl; [contradiction |].
  destruct (String.eqb k' k); simpl; intros [-> | Hx]; auto.
Qed.

(** The loop forgets no variable. *)
Lemma apply_overrides_keeps (overrides : list (string * string))
    (prev : list (string * option string)) (env : environ)
    (applied : bool) (prev' : list (string * option string))
    (env' : environ) :
  apply_overrides accepts overrides prev env = (applied, prev', env') ->
  forall x, In x (map fst prev) -> In x (map fst prev').
Proof.
  revert prev env.
  induction overrides as [| [k v] overrides IH]; intros prev env Hrun x Hx.
  - cbn [apply_overrides] in Hrun. injection Hrun as _ <- _. exact Hx.
  - cbn [apply_overrides] in Hrun.
    pose proof (remember_keeps k (env k) prev x Hx) as Hx'.
    destruct (accepts k v).
    + apply (IH _ _ Hrun x Hx').
    + injection Hrun as _ <- _. exact Hx'.
Qed.

(** A loop that went through met no refusal. *)
Lemma apply_overrides_all (overrides : list (string * string))
    (prev : list (string * option string)) (env : environ)
    (prev' : list (string * option string)) (env' : environ) :
  apply_overrides accepts overrides prev env = (true, prev', env') ->
  forallb (fun kv => accepts (fst kv) (snd kv)) overrides = true.
Proof.
  revert prev env.
  induction overrides as [| [k v] overrides IH]; intros prev env Hrun.
  - reflexivity.
  - cbn [apply_overrides] in Hrun. cbn [forallb fst snd].
    destruct (accepts k v); [| discriminate Hrun].
    apply (IH _ _ Hrun).
Qed.

Lemma apply_overrides_remembers (env0 : environ)
    (overrides : list (string * string))
    (prev : list (string * option string)) (env : environ) :
  NoDup (map fst prev ++ map fst overrides) ->
  remembers env0 prev env ->
  forall applied prev' env',
    apply_overrides accepts overrides prev env = (applied, prev', env') ->
    remembers env0 prev' env'
    /\ (forall k, In k (map fst prev') ->
          In k (map fst prev) \/ In k (map fst overrides))
    /\ (applied = true ->
        env' = with_overrides overrides env
        /\ forall k, In k (map fst overrides) -> In k (map fst prev'))
    /\ (applied = false ->
        forallb (fun kv => accepts (fst kv) (snd kv)) overrides = false).
Proof.
  revert prev env.
  induction overrides as [| [k v] overrides IH]; intros prev env Hnodup Hinv
    applied prev' env' Hrun.
  - cbn [apply_overrides] in Hrun. injection Hrun as <- <- <-.
    split; [exact Hinv | split; [| split]].
    + intros k Hin. left. exact Hin.
    + intros _. split; [reflexivity | intros k []].
    + discriminate.
  - cbn [apply_overrides] in Hrun.
    assert (Hfresh : ~ In k (map fst prev)).
    { intros Hin. cbn [map fst] in Hnodup.
      apply NoDup_remove_2 in Hnodup. apply Hnodup.
      apply in_or_app. left. exact Hin. }
    rewrite (remember_new k (env k) prev Hfresh) in Hrun.
    destruct Hinv as (Hnd & Hold & Hrest).
    assert (Hnd' : NoDup (map fst (prev ++ [(k, env k)]))).
    { rewrite map_app. cbn [map fst].
      apply NoDup_app_remove_r with (l' := map fst overrides).
      rewrite <- app_assoc. cbn [app]. exact Hnodup. }
    assert (Hold' : forall k' old,
               In (k', old) (prev ++ [(k, env k)]) -> old = env0 k').
    { intros k' old Hin. apply in_app_or in Hin.
      destruct Hin as [Hin | [Heq | []]].
      - apply (Hold k' old Hin).
      - injection Heq as <- <-. apply (Hrest k Hfresh). }
    destruct (accepts k v) eqn:Hacc.
    + assert (Hinv' : remembers env0 (prev ++ [(k, env k)])
                        (env_set k v env)).
      { split; [exact Hnd' | split; [exact Hold' |]].
        intros k' Hout. rewrite map_app in Hout. cbn [map fst] in Hout.
        assert (Hne : k' <> k).
        { intros ->. apply Hout. apply in_or_app. right. left. reflexivity. }
        rewrite (env_set_other k v k' env Hne). apply Hrest.
        intros Hin. apply Hout. apply in_or_app. left. exact Hin. }
      assert (Hnodup' : NoDup (map fst (prev ++ [(k, env k)])
                               ++ map fst overrides)).
      { rewrite map_app, <- app_assoc. cbn [map fst app]. exact Hnodup. }
      destruct (IH _ _ Hnodup' Hinv' applied prev' env' Hrun)
        as (Hrem & Hsub & Hyes & Hno).
      split; [exact Hrem | split; [| split]].
      * intros k' Hin. destruct (Hsub k' Hin) as [Hp | Ho].
        -- rewrite map_app in Hp. apply in_app_or in Hp.
           destruct Hp as [Hp | [<- | []]];
             [left; exact Hp | right; left; reflexivity].
        -- right. right. exact Ho.
      * intros Happ. destruct (Hyes Happ) as [Henv Hall].
        split; [exact Henv |].
        intros k' [<- | Hin].
        -- apply (apply_overrides_keeps _ _ _ _ _ _ Hrun).
           rewrite map_app. apply in_or_app. right. left. reflexivity.
        -- apply Hall. exact Hin.
      * intros Hfalse. cbn [forallb fst snd]. rewrite Hacc. apply Hno.
        exact Hfalse.
    + injection Hrun as <- <- <-.
      split; [| split; [| split]].
      * split; [exact Hnd' | split; [exact Hold' |]].
        intros k' Hout. apply Hrest. intros Hin. apply Hout.
        rewrite map_app. apply in_or_app. left. exact Hin.
      * intros k' Hin. rewrite map_app in Hin. apply in_app_or in Hin.
        destruct Hin as [Hin | [<- | []]];
          [left; exact Hin | right; left; reflexivity].
      * discriminate.
      * intros _. cbn [forallb fst snd]. rewrite Hacc. reflexivity.
Qed.

End Restoring.

Lemma with_overrides_other (overrides : list (string * string))
    (env : environ) (k : string) :
  ~ In k (map fst overrides) -> with_overrides overrides env k = env k.
Proof.
  revert env. induction overrides as [| [k1 v1] overrides IH]; intros env Hout.
  - reflexivity.
  - cbn [with_overrides fold_left fst snd].
    change (fold_left _ overrides (env_set k1 v1 env))
      with (with_overrides overrides (env_set k1 v1 env)).
    rewrite IH; [| intros Hin; apply Hout; right; exact Hin].
    apply env_set_other. intros ->. apply Hout. left. reflexivity.
Qed.

Lemma with_overrides_holds (overrides : list (string * string))
    (env : environ) (k v : string) :
  NoDup (map fst overrides) -> In (k, v) overrides ->
  with_overrides overrides env k = Some v.
Proof.
  revert env. induction overrides as [| [k1 v1] overrides IH];
    intros env Hnodup Hin; [contradiction |].
  cbn [map fst] in Hnodup. apply NoDup_cons_iff in Hnodup.
  destruct Hnodup as [Hfresh Hnodup].
  cbn [with_overrides fold_left fst snd].
  change (fold_left _ overrides (env_set k1 v1 env))
    with (with_overrides overrides (env_set k1 v1 env)).
  destruct Hin as [Heq | Hin].
  - injection Heq as <- <-.
    rewrite (with_overrides_other _ _ _ Hfresh). apply env_set_same.
  - apply (IH _ Hnodup Hin).
Qed.

Section Running.

Variable accepts : string -> string -> bool.

(** The two ways a run goes: the script runs under all the overrides, or an
    override is refused and the script does not run. *)
Lemma run_script_cases (run_path : script)
    (overrides : list (string * string)) (env : environ) :
  NoDup (map fst overrides) ->
  accepted accepts env ->
  (forallb (fun kv => accepts (fst kv) (snd kv)) overrides = true
   /\ status (run_script accepts run_path overrides env)
     = verdict (fst (run_path (with_overrides overrides env)))
   /\ (forall k, In k (map fst overrides) ->
         environ_after (run_script accepts run_path overrides env) k = env k)
   /\ (forall k, ~ In k (map fst overrides) ->
         environ_after (run_script accepts run_path overrides env) k
         = snd (run_path (with_overrides overrides env)) k))
  \/ (forallb (fun kv => accepts (fst kv) (snd kv)) overrides = false
      /\ status (run_script accepts run_path overrides env) = Done 1%Z
      /\ shown (run_script accepts run_path overrides env)
         = [Error_while_running]
      /\ forall k,
           environ_after (run_script accepts run_path overrides env) k
           = env k).
Proof.
  intros Hnodup Henv. unfold run_script.
  destruct (apply_overrides accepts overrides [] env)
    as [[applied prev] env1] eqn:Happly.
  assert (Hstart : remembers env [] env).
  { split; [constructor | split; [intros k old [] | reflexivity]]. }
  destruct (apply_overrides_remembers accepts env overrides [] env
              Hnodup Hstart applied prev env1 Happly)
    as ((Hnd & Hold & Hrest) & Hsub & Hyes & Hno).
  assert (Hacc : forall k v, In (k, Some v) prev -> accepts k v = true).
  { intros k v Hin. apply Henv. symmetry. apply (Hold k (Some v) Hin). }
  destruct applied.
  - left. split; [apply (apply_overrides_all _ _ _ _ _ _ Happly) |].
    destruct (Hyes eq_refl) as [-> Hall].
    destruct (run_path (with_overrides overrides env)) as [ending env2].
    cbn [fst snd].
    assert (Hdone : forall (outcome : result Z) (lines : list message),
      let r := match restore accepts prev env2 with
               | (true, env3) =>
                   {| status := outcome; environ_after := env3;
                      shown := lines |}
               | (false, env3) =>
                   {| status := Failed Refused_variable;
                      environ_after := env3; shown := lines |}
               end in
      status r = outcome
      /\ (forall k, In k (map fst overrides) -> environ_after r k = env k)
      /\ (forall k, ~ In k (map fst overrides) ->
            environ_after r k = env2 k)).
    { intros outcome lines.
      destruct (restore_all accepts prev env2 Hnd Hacc)
        as (env3 & -> & Hkeep & Hframe).
      cbn. split; [reflexivity | split].
      - intros k Hin. apply Hall in Hin. apply in_map_iff in Hin.
        destruct Hin as ([k' old] & <- & Hin). cbn [fst].
        rewrite (Hkeep k' old Hin). apply (Hold k' old Hin).
      - intros k Hout. apply Hframe. intros Hin.
        destruct (Hsub k Hin) as [[] | Hin']. apply Hout. exact Hin'. }
    destruct ending as [| code | what | what]; apply Hdone.
  - right. split; [apply Hno; reflexivity |].
    destruct (restore_all accepts prev env1 Hnd Hacc)
      as (env3 & -> & Hkeep & Hframe).
    cbn. split; [reflexivity | split; [reflexivity |]].
    intros k. destruct (in_dec string_dec k (map fst prev)) as [Hin | Hout].
    + apply in_map_iff in Hin. destruct Hin as ([k' old] & <- & Hin).
      cbn [fst]. rewrite (Hkeep k' old Hin). apply (Hold k' old Hin).
    + rewrite (Hframe k Hout). apply (Hrest k Hout).
Qed.

(** X18: whatever the script does to the environment and however it ends,
    and whether or not an override was refused, after [run_script] every
    overridden variable holds the value it held before the call, or is unset
    if it was unset. *)
Theorem run_script_restores (run_path : script)
    (overrides : list (string * string)) (env : environ) (k : string) :
  NoDup (map fst overrides) ->
  accepted accepts env ->
  In k (map fst overrides) ->
  environ_after (run_script accepts run_path overrides env) k = env k.
Proof.
  intros Hnodup Henv Hin.
  destruct (run_script_cases run_path overrides env Hnodup Henv)
    as [(_ & _ & Hkeys & _) | (_ & _ & _ & Hall)].
  - apply (Hkeys k Hin).
  - apply Hall.
Qed.

(** X19: when the platform accepts every override, a variable that is not
    overridden is left as the script left it: what the script sets outside
    the overrides stays set after [run_script]. *)
Theorem run_script_keeps_other_changes (run_path : script)
    (overrides : list (string * string)) (env : environ) (k : string) :
  NoDup (map fst overrides) ->
  accepted accepts env ->
  forallb (fun kv => accepts (fst kv) (snd kv)) overrides = true ->
  ~ In k (map fst overrides) ->
  environ_after (run_script accepts run_path overrides env) k
  = snd (run_path (with_overrides overrides env)) k.
Proof.
  intros Hnodup Henv Hacc Hout.
  destruct (run_script_cases run_path overrides env Hnodup Henv)
    as [(_ & _ & _ & Hothers) | (Hrefused & _)].
  - apply (Hothers k Hout).
  - rewrite Hrefused in Hacc. discriminate Hacc.
Qed.

(** X20: when the platform accepts every override, the script runs once, in
    the environment in which every override holds, and [run_script] returns
    0 if it returns, 1 if it raises an [Exception], and [int(code or 0)] if
    it exits; it raises when that [int()] raises (a script that exits with a
    message) and when the script is interrupted. *)
Theorem run_script_status (run_path : script)
    (overrides : list (string * string)) (env : environ) :
  NoDup (map fst overrides) ->
  accepted accepts env ->
  forallb (fun kv => accepts (fst kv) (snd kv)) overrides = true ->
  status (run_script accepts run_path overrides env)
    = verdict (fst (run_path (with_overrides overrides env)))
  /\ forall k v, In (k, v) overrides ->
       with_overrides overrides env k = Some v.
Proof.
  intros Hnodup Henv Hacc. split.
  - destruct (run_script_cases run_path overrides env Hnodup Henv)
      as [(_ & Hstatus & _) | (Hrefused & _)].
    + exact Hstatus.
    + rewrite Hrefused in Hacc. discriminate Hacc.
  - intros k v Hin. apply (with_overrides_holds _ _ _ _ Hnodup Hin).
Qed.

(** X21: when the platform refuses an override, [run_script] does not run
    the script: it prints the error, returns 1, and leaves the whole
    environment as it was before the call. *)
Theorem run_script_refused (run_path : script)
    (overrides : list (string * string)) (env : environ) :
  NoDup (map fst overrides) ->
  accepted accepts env ->
  forallb (fun kv => accepts (fst kv) (snd kv)) overrides = false ->
  status (run_script accepts run_path overrides env) = Done 1%Z
  /\ shown (run_script accepts run_path overrides env)
     = [Error_while_running]
  /\ forall k,
       environ_after (run_script accepts run_path overrides env) k = env k.
Proof.
  intros Hnodup Henv Hrefused.
  destruct (run_script_cases run_path overrides env Hnodup Henv)
    as [(Hall & _) | (_ & Hrest)]; [| exact Hrest].
  rewrite Hall in Hrefused. discriminate Hrefused.
Qed.

End Running.

Lemma one_car_accepted : accepted posix one_car.
Proof.
  intros k v. unfold one_car.
  destruct (String.eqb_spec k "CAR_NAME"%string) as [-> | Hne];
    [reflexivity | discriminate].
Qed.

Lemma one_override_nodup : NoDup (map fst car_seven).
Proof. repeat constructor. intros []. Qed.

Lemma run_script_restores_witness :
  environ_after (run_script posix noisy car_seven one_car) "CAR_NAME"%string
  = one_car "CAR_NAME"%string.
Proof.
  apply (run_script_restores posix noisy car_seven one_car "CAR_NAME"%string).
  - exact one_override_nodup.
  - exact one_car_accepted.
  - left. reflexivity.
Defined.

Lemma run_script_keeps_other_changes_witness :
  environ_after (run_script posix noisy car_seven one_car) "TRACE"%string
  = snd (noisy (with_overrides car_seven one_car)) "TRACE"%string.
Proof.
  apply (run_script_keeps_other_changes posix noisy car_seven one_car
           "TRACE"%string).
  - exact one_override_nodup.
  - exact one_car_accepted.
  - reflexivity.
  - intros [H | []]. discriminate H.
Defined.

Lemma run_script_status_witness :
  status (run_script posix noisy car_seven one_car)
    = verdict (fst (noisy (with_overrides car_seven one_car)))
  /\ forall k v, In (k, v) car_seven ->
       with_overrides car_seven one_car k = Some v.
Proof.
  apply (run_script_status posix noisy car_seven one_car).
  - exact one_override_nodup.
  - exact one_car_accepted.
  - reflexivity.
Defined.

Lemma run_script_refused_witness :
  status (run_script posix noisy no_name one_car) = Done 1%Z
  /\ shown (run_script posix noisy no_name one_car) = [Error_while_running]
  /\ forall k, environ_after (run_script posix noisy no_name one_car) k
               = one_car k.
Proof.
  apply (run_script_refused posix noisy no_name one_car).
  - repeat constructor. intros [].
  - exact one_car_accepted.
  - reflexivity.
Defined.

(** A script that exits with a message makes [run_script] raise; the car
    is renamed back, the script's own variable stays. *)
Example run_script_noisy :
  status (run_script posix noisy car_seven one_car) = Failed Bad_exit_code
  /\ environ_after (run_script posix noisy car_seven one_car) "CAR_NAME"%string
     = Some "Car1"%string
  /\ environ_after (run_script posix noisy car_seven one_car) "TRACE"%string
     = Some "on"%string.
Proof. repeat split. Qed.

End CliFacts.

(** * The [settings] command *)

Module SettingsFacts.
Import Settings.
Local Open Scope settings_scope.

(** ** Items of an object *)

Lemma lookup_put_same (k : string) (v : json) (items : list (string * json)) :
  lookup k (put k v items) = Some v.
Proof.
  induction items as [| [k' v'] items IH]; simpl.
  - rewrite String.eqb_refl. reflexivity.
  - destruct (String.eqb k' k) eqn:Hk; simpl; rewrite Hk;
      [reflexivity | exact IH].
Qed.

Lemma lookup_put_other (k k' : string) (v : json)
    (items : list (string * json)) :
  k' <> k -> lookup k' (put k v items) = lookup k' items.
Proof.
  intros Hne. induction items as [| [k1 v1] items IH]; simpl.
  - destruct (String.eqb_spec k k') as [-> | _]; [contradiction | reflexivity].
  - destruct (String.eqb_spec k1 k) as [-> | Hk]; simpl.
    + destruct (String.eqb_spec k k') as [-> | _];
        [contradiction | reflexivity].
    + rewrite IH. reflexivity.
Qed.

Lemma put_known (k : string) (v : json) (items : list (string * json)) :
  lookup k items = Some v -> put k v items = items.
Proof.
  induction items as [| [k' v'] items IH]; simpl; [discriminate |].
  destruct (String.eqb k' k).
  - intros H. injection H as ->. reflexivity.
  - intros H. rewrite (IH H). reflexivity.
Qed.

Lemma put_put (k : string) (v w : json) (items : list (string * json)) :
  put k v (put k w items) = put k v items.
Proof.
  induction items as [| [k' v'] items IH]; simpl.
  - rewrite String.eqb_refl. reflexivity.
  - destruct (String.eqb k' k) eqn:Hk; simpl; rewrite Hk;
      [reflexivity | rewrite IH; reflexivity].
Qed.

(** ** Paths *)

Lemma at_path_empty (p : list string) :
  p <> [] -> at_path p (JDict []) = None.
Proof. destruct p; [contradiction | reflexivity]. Qed.

(** What is set at a path is found there. *)
Lemma at_set_same (p : list string) (v j j' : json) :
  set_path p v j = Some j' -> at_path p j' = Some v.
Proof.
  revert j j'. induction p as [| k p IH]; intros j j'; simpl.
  - intros H. injection H as <-. reflexivity.
  - destruct j as [| | | | | | items]; try discriminate.
    destruct (set_path p v _) as [child' |] eqn:Hset; [| discriminate].
    intros H. injection H as <-.
    rewrite lookup_put_same. apply (IH _ _ Hset).
Qed.

(** What is set at a path leaves the paths that part from it. *)
Lemma at_set_parts (p q : list string) (v j j' : json) :
  set_path q v j = Some j' -> parts p q -> at_path p j' = at_path p j.
Proof.
  intros Hset (common & k & r & k' & r' & -> & -> & Hne).
  revert j j' Hset. induction common as [| c common IH]; intros j j' Hset.
  - cbn [app set_path] in Hset.
    destruct j as [| | | | | | items]; try discriminate.
    destruct (set_path r' v _) as [child' |]; [| discriminate].
    injection Hset as <-. cbn [app at_path].
    rewrite (lookup_put_other k' k child' items Hne). reflexivity.
  - cbn [app set_path] in Hset.
    destruct j as [| | | | | | items]; try discriminate.
    destruct (set_path (common ++ k' :: r') v _) as [child' |] eqn:Hchild;
      [| discriminate].
    injection Hset as <-. cbn [app at_path].
    rewrite lookup_put_same, (IH _ _ Hchild). unfold child_or_empty.
    destruct (lookup c items) as [child |]; [reflexivity |].
    apply at_path_empty. destruct common; discriminate.
Qed.

(** Setting what is there already changes nothing. *)
Lemma set_known (p : list string) (v j : json) :
  p <> [] -> at_path p j = Some v -> set_path p v j = Some j.
Proof.
  revert j. induction p as [| k p IH]; intros j Hne; [contradiction |].
  cbn [at_path set_path].
  destruct j as [| | | | | | items]; try discriminate.
  destruct (lookup k items) as [child |] eqn:Hk; [| discriminate].
  intros Hat. unfold child_or_empty. rewrite Hk. destruct p as [| k2 p].
  - cbn [at_path] in Hat. injection Hat as ->. cbn [set_path].
    rewrite (put_known _ _ _ Hk). reflexivity.
  - rewrite (IH child); [| discriminate | exact Hat].
    rewrite (put_known _ _ _ Hk). reflexivity.
Qed.

(** ** The changes of the options, path by path *)

Lemma setdefault_eq (t : json) (k : string) :
  setdefault t k =
  match t with
  | JDict items =>
      Done (child_or_empty k items,
            JDict (match lookup k items with
                   | Some _ => items
                   | None => put k (JDict []) items
                   end))
  | _ => Failed Attribute_error
  end.
Proof.
  destruct t as [| | | | | | items]; try reflexivity.
  unfold setdefault, child_or_empty.
  destruct (lookup k items); reflexivity.
Qed.

Lemma graft_after (items : list (string * json)) (k : string) (c : json) :
  graft (JDict (match lookup k items with
                | Some _ => items
                | None => put k (JDict []) items
                end)) k c
  = JDict (put k c items).
Proof.
  cbn [graft]. destruct (lookup k items); [reflexivity |].
  rewrite put_put. reflexivity.
Qed.

(** Lines 253-262 are a change of the lidar object at the end of its
    path. *)
Lemma chain_eq (vk : string) (edit1 edit2 : json -> result json)
    (data1 : json) :
  to_option
    (a <- setdefault data1 "Vehicles" ;;
     let '(vehicles, data2) := a in
     b <- setdefault vehicles vk ;;
     let '(car, vehicles1) := b in
     c <- setdefault car "Sensors" ;;
     let '(sensors, car1) := c in
     d <- setdefault sensors "Lidar360" ;;
     let '(lidar, sensors1) := d in
     lidar1 <- edit1 lidar ;;
     lidar2 <- edit2 lidar1 ;;
     Done (graft data2 "Vehicles"
             (graft vehicles1 vk
                (graft car1 "Sensors" (graft sensors1 "Lidar360" lidar2))),
           true))
  = match descend ["Vehicles"%string; vk; "Sensors"%string; "Lidar360"%string]
            (fun l => match to_option (edit1 l) with
                      | Some l1 => to_option (edit2 l1)
                      | None => None
                      end) data1 with
    | Some d => Some (d, true)
    | None => None
    end.
Proof.
  rewrite setdefault_eq.
  destruct data1 as [| | | | | | items1]; try reflexivity.
  cbn [rbind descend]. rewrite setdefault_eq.
  destruct (child_or_empty "Vehicles" items1) as [| | | | | | items2];
    try reflexivity.
  cbn [rbind descend]. rewrite setdefault_eq.
  destruct (child_or_empty vk items2) as [| | | | | | items3];
    try reflexivity.
  cbn [rbind descend]. rewrite setdefault_eq.
  destruct (child_or_empty "Sensors" items3) as [| | | | | | items4];
    try reflexivity.
  cbn [rbind descend].
  destruct (edit1 (child_or_empty "Lidar360" items4)) as [l1 | e];
    [| reflexivity].
  cbn [rbind to_option].
  destruct (edit2 l1) as [l2 | e]; [| reflexivity].
  cbn [rbind to_option]. rewrite !graft_after. reflexivity.
Qed.

Lemma setitem_put_at (l : json) (k : string) (v : json) :
  to_option (setitem l k v) = put_at k v l.
Proof. destruct l; reflexivity. Qed.

Lemma set_path_descend (keys : list string) (k : string) (v j : json) :
  set_path (keys ++ [k]) v j = descend keys (put_at k v) j.
Proof.
  revert j. induction keys as [| k1 keys IH]; intros j.
  - destruct j; reflexivity.
  - cbn [app set_path descend]. destruct j as [| | | | | | items];
      try reflexivity.
    rewrite IH. reflexivity.
Qed.

Lemma descend_ext (keys : list string) (f g : json -> option json)
    (j : json) :
  (forall l, f l = g l) -> descend keys f j = descend keys g j.
Proof.
  intros Hfg. revert j. induction keys as [| k keys IH]; intros j.
  - apply Hfg.
  - cbn [descend]. destruct j; try reflexivity. rewrite IH. reflexivity.
Qed.

(** Two changes at the end of the same path, one after the other. *)
Lemma descend_then (keys : list string) (f g : json -> option json)
    (j : json) :
  match descend keys f j with
  | Some j1 => descend keys g j1
  | None => None
  end
  = descend keys (fun l => match f l with
                           | Some l1 => g l1
                           | None => None
                           end) j.
Proof.
  revert j. induction keys as [| k keys IH]; intros j.
  - reflexivity.
  - cbn [descend]. destruct j as [| | | | | | items]; try reflexivity.
    rewrite <- IH.
    destruct (descend keys f (child_or_empty k items)) as [c1 |];
      [| reflexivity].
    cbn [descend]. unfold child_or_empty at 1. rewrite lookup_put_same.
    destruct (descend keys g c1) as [c2 |]; [| reflexivity].
    rewrite put_put. reflexivity.
Qed.

Lemma lidar_path_eq (o : options) (key : string) :
  lidar_path o key = keys_to_lidar o ++ [key].
Proof. reflexivity. Qed.

(** The lidar part of the changes. *)
Lemma lidar_part (o : options) (data1 : json) (changed1 : bool) :
  to_option
    (match enable_lidar o, lidar_rate o with
     | None, None => Done (data1, changed1)
     | _, _ =>
         a <- setdefault data1 "Vehicles" ;;
         let '(vehicles, data2) := a in
         b <- setdefault vehicles (vkey o) ;;
         let '(car, vehicles1) := b in
         c <- setdefault car "Sensors" ;;
         let '(sensors, car1) := c in
         d <- setdefault sensors "Lidar360" ;;
         let '(lidar, sensors1) := d in
         lidar1 <- (match enable_lidar o with
                    | Some on => setitem lidar "Enabled" (JBool on)
                    | None => Done lidar
                    end) ;;
         lidar2 <- (match lidar_rate o with
                    | Some pps => setitem lidar1 "PointsPerSecond" (JInt pps)
                    | None => Done lidar1
                    end) ;;
         Done (graft data2 "Vehicles"
                 (graft vehicles1 (vkey o)
                    (graft car1 "Sensors"
                       (graft sensors1 "Lidar360" lidar2))),
               true)
     end)
  = match (match enable_lidar o with
           | Some on => set_path (lidar_path o "Enabled") (JBool on) data1
           | None => Some data1
           end) with
    | None => None
    | Some d2 =>
        match (match lidar_rate o with
               | Some pps =>
                   set_path (lidar_path o "PointsPerSecond") (JInt pps) d2
               | None => Some d2
               end) with
        | None => None
        | Some d3 =>
            Some (d3,
                  changed1
                  || match enable_lidar o with
                     | Some _ => true
                     | None => false
                     end
                  || match lidar_rate o with
                     | Some _ => true
                     | None => false
                     end)
        end
    end.
Proof.
  rewrite !lidar_path_eq.
  destruct (enable_lidar o) as [on |]; destruct (lidar_rate o) as [pps |].
  - etransitivity;
      [apply (chain_eq (vkey o)
                (fun l => setitem l "Enabled" (JBool on))
                (fun l => setitem l "PointsPerSecond" (JInt pps))) |].
    rewrite !set_path_descend.
    pose proof (descend_then (keys_to_lidar o) (put_at "Enabled" (JBool on))
                  (put_at "PointsPerSecond" (JInt pps)) data1) as Hthen.
    rewrite (descend_ext (keys_to_lidar o) _
               (fun l => match put_at "Enabled" (JBool on) l with
                         | Some l1 => put_at "PointsPerSecond" (JInt pps) l1
                         | None => None
                         end)).
    + fold (keys_to_lidar o). rewrite <- Hthen.
      destruct (descend (keys_to_lidar o) (put_at "Enabled" (JBool on)) data1)
        as [d2 |]; [| reflexivity].
      rewrite set_path_descend.
      destruct (descend (keys_to_lidar o) _ d2); [| reflexivity].
      rewrite orb_true_r. reflexivity.
    + intros l. rewrite setitem_put_at.
      destruct (put_at "Enabled" (JBool on) l); [| reflexivity].
      apply setitem_put_at.
  - etransitivity;
      [apply (chain_eq (vkey o)
                (fun l => setitem l "Enabled" (JBool on))
                (fun l => Done l)) |].
    rewrite set_path_descend.
    rewrite (descend_ext _ _ (put_at "Enabled" (JBool on))).
    + fold (keys_to_lidar o).
      destruct (descend (keys_to_lidar o) _ data1); [| reflexivity].
      rewrite orb_true_r. reflexivity.
    + intros l. rewrite setitem_put_at.
      destruct (put_at "Enabled" (JBool on) l); reflexivity.
  - etransitivity;
      [apply (chain_eq (vkey o)
                (fun l => Done l)
                (fun l => setitem l "PointsPerSecond" (JInt pps))) |].
    rewrite set_path_descend.
    rewrite (descend_ext _ _ (put_at "PointsPerSecond" (JInt pps))).
    + fold (keys_to_lidar o).
      destruct (descend (keys_to_lidar o) _ data1); [| reflexivity].
      rewrite orb_true_r. reflexivity.
    + intros l. apply setitem_put_at.
  - cbn [to_option]. rewrite !orb_false_r. reflexivity.
Qed.

(** The changes [apply_options] makes are the ones the options ask for,
    path by path, and it fails when there is no such tree. *)
Lemma apply_options_intended (o : options) (data : json) :
  to_option (apply_options o data) = intended o data.
Proof.
  unfold apply_options, intended, asks.
  destruct (sim_mode o) as [[| ch s] |].
  - cbn [rbind]. apply lidar_part.
  - destruct data as [| | | | | | items]; try reflexivity.
    cbn [setitem rbind]. rewrite lidar_part. reflexivity.
  - cbn [rbind]. apply lidar_part.
Qed.

(** ** What the command changes *)

Lemma parts_sim_mode (o : options) (key : string) :
  parts ["SimMode"%string] (lidar_path o key).
Proof.
  exists [], "SimMode"%string, [], "Vehicles"%string,
    [vkey o; "Sensors"%string; "Lidar360"%string; key].
  repeat split. discriminate.
Qed.

Lemma parts_sym (p q : list string) : parts p q -> parts q p.
Proof.
  intros (common & k & r & k' & r' & Hp & Hq & Hne).
  exists common, k', r', k, r. repeat split; [exact Hq | exact Hp |].
  intros Heq. apply Hne. symmetry. exact Heq.
Qed.

Lemma parts_lidar_keys (o : options) (k k' : string) :
  k <> k' -> parts (lidar_path o k) (lidar_path o k').
Proof.
  intros Hne. exists (keys_to_lidar o), k, [], k', [].
  repeat split. exact Hne.
Qed.

(** One stage of the changes leaves the paths that part from its own. *)
Lemma stage_parts (A : Type) (opt : option A) (q : list string)
    (v : A -> json) (p : list string) (d d' : json) :
  match opt with
  | Some x => set_path q (v x) d
  | None => Some d
  end = Some d' ->
  (opt <> None -> parts p q) ->
  at_path p d' = at_path p d.
Proof.
  destruct opt as [x |]; intros Hstage Hparts.
  - apply (at_set_parts p q (v x) d d' Hstage). apply Hparts. discriminate.
  - injection Hstage as <-. reflexivity.
Qed.

(** The three stages of a run that succeeds. *)
Lemma apply_options_stages (o : options) (data data' : json)
    (changed : bool) :
  apply_options o data = Done (data', changed) ->
  exists d1 d2,
    match sim_mode o with
    | Some (String c s) =>
        set_path ["SimMode"%string] (JStr (String c s)) data
    | _ => Some data
    end = Some d1
    /\ match enable_lidar o with
       | Some on => set_path (lidar_path o "Enabled") (JBool on) d1
       | None => Some d1
       end = Some d2
    /\ match lidar_rate o with
       | Some pps => set_path (lidar_path o "PointsPerSecond") (JInt pps) d2
       | None => Some d2
       end = Some data'
    /\ changed = asks o.
Proof.
  intros Hrun. pose proof (apply_options_intended o data) as Hint.
  rewrite Hrun in Hint. cbn [to_option] in Hint. unfold intended in Hint.
  destruct (match sim_mode o with
            | Some (String c s) => _
            | _ => Some data
            end) as [d1 |] eqn:H1; [| discriminate Hint].
  destruct (match enable_lidar o with
            | Some on => _
            | None => Some d1
            end) as [d2 |] eqn:H2; [| discriminate Hint].
  destruct (match lidar_rate o with
            | Some pps => _
            | None => Some d2
            end) as [d3 |] eqn:H3; [| discriminate Hint].
  injection Hint as <- <-. exists d1, d2.
  split; [reflexivity | split; [exact H2 | split; [exact H3 | reflexivity]]].
Qed.

(** What the three stages set is found at the end. *)
Lemma found_after_stages (o : options) (data d1 d2 data' : json) :
  match sim_mode o with
  | Some (String c s) => set_path ["SimMode"%string] (JStr (String c s)) data
  | _ => Some data
  end = Some d1 ->
  match enable_lidar o with
  | Some on => set_path (lidar_path o "Enabled") (JBool on) d1
  | None => Some d1
  end = Some d2 ->
  match lidar_rate o with
  | Some pps => set_path (lidar_path o "PointsPerSecond") (JInt pps) d2
  | None => Some d2
  end = Some data' ->
  (forall c s, sim_mode o = Some (String c s) ->
     at_path ["SimMode"%string] data' = Some (JStr (String c s)))
  /\ (forall on, enable_lidar o = Some on ->
        at_path (lidar_path o "Enabled") data' = Some (JBool on))
  /\ (forall pps, lidar_rate o = Some pps ->
        at_path (lidar_path o "PointsPerSecond") data' = Some (JInt pps)).
Proof.
  intros H1 H2 H3. split; [| split].
  - intros c s Hsim. rewrite Hsim in H1.
    rewrite (stage_parts Z _ _ JInt ["SimMode"%string] _ _ H3)
      by (intros _; apply parts_sim_mode).
    rewrite (stage_parts bool _ _ JBool ["SimMode"%string] _ _ H2)
      by (intros _; apply parts_sim_mode).
    apply (at_set_same _ _ _ _ H1).
  - intros on Hon. rewrite Hon in H2.
    rewrite (stage_parts Z _ _ JInt (lidar_path o "Enabled") _ _ H3)
      by (intros _; apply parts_lidar_keys; discriminate).
    apply (at_set_same _ _ _ _ H2).
  - intros pps Hpps. rewrite Hpps in H3.
    apply (at_set_same _ _ _ _ H3).
Qed.

(** X22: after a run of the changes that succeeds, every value an option
    gives is found at its path in the settings: [SimMode] at the root,
    [Enabled] and [PointsPerSecond] under
    [Vehicles/<vehicle>/Sensors/Lidar360]; and [changed] tells whether an
    option asked for a change. *)
Theorem settings_values_found (o : options) (data data' : json)
    (changed : bool) :
  apply_options o data = Done (data', changed) ->
  (forall c s, sim_mode o = Some (String c s) ->
     at_path ["SimMode"%string] data' = Some (JStr (String c s)))
  /\ (forall on, enable_lidar o = Some on ->
        at_path (lidar_path o "Enabled") data' = Some (JBool on))
  /\ (forall pps, lidar_rate o = Some pps ->
        at_path (lidar_path o "PointsPerSecond") data' = Some (JInt pps))
  /\ changed = asks o.
Proof.
  intros Hrun.
  destruct (apply_options_stages o data data' changed Hrun)
    as (d1 & d2 & H1 & H2 & H3 & Hchanged).
  destruct (found_after_stages o data d1 d2 data' H1 H2 H3)
    as (Hsim & Hon & Hpps).
  split; [exact Hsim | split; [exact Hon | split; [exact Hpps |]]].
  exact Hchanged.
Qed.

(** X23: a run of the changes that succeeds leaves every value whose path
    parts from the three paths the options can set: the other keys of the
    root, the other vehicles, the other sensors and the other keys of the
    lidar are as they were. *)
Theorem settings_rest_untouched (o : options) (data data' : json)
    (changed : bool) (p : list string) :
  apply_options o data = Done (data', changed) ->
  parts p ["SimMode"%string] ->
  parts p (lidar_path o "Enabled") ->
  parts p (lidar_path o "PointsPerSecond") ->
  at_path p data' = at_path p data.
Proof.
  intros Hrun Psim Pon Ppps.
  destruct (apply_options_stages o data data' changed Hrun)
    as (d1 & d2 & H1 & H2 & H3 & _).
  rewrite (stage_parts Z _ _ JInt p _ _ H3) by (intros _; exact Ppps).
  rewrite (stage_parts bool _ _ JBool p _ _ H2) by (intros _; exact Pon).
  destruct (sim_mode o) as [[| c s] |].
  - injection H1 as <-. reflexivity.
  - apply (at_set_parts p _ _ _ _ H1 Psim).
  - injection H1 as <-. reflexivity.
Qed.

(** X24: running the same changes on settings they have already been made
    to changes nothing more. *)
Theorem settings_idempotent (o : options) (data data' : json)
    (changed : bool) :
  apply_options o data = Done (data', changed) ->
  apply_options o data' = Done (data', changed).
Proof.
  intros Hrun.
  destruct (apply_options_stages o data data' changed Hrun)
    as (d1 & d2 & H1 & H2 & H3 & ->).
  destruct (found_after_stages o data d1 d2 data' H1 H2 H3)
    as (Hsim & Hon & Hpps).
  pose proof (apply_options_intended o data') as Hint.
  assert (Hsame : intended o data' = Some (data', asks o)).
  { unfold intended.
    replace (match sim_mode o with
             | Some (String c s) =>
                 set_path ["SimMode"%string] (JStr (String c s)) data'
             | _ => Some data'
             end) with (Some data').
    2:{ destruct (sim_mode o) as [[| c s] |]; try reflexivity.
        symmetry. apply set_known; [discriminate |].
        apply Hsim. reflexivity. }
    replace (match enable_lidar o with
             | Some on => set_path (lidar_path o "Enabled") (JBool on) data'
             | None => Some data'
             end) with (Some data').
    2:{ destruct (enable_lidar o) as [on |]; [| reflexivity].
        symmetry. apply set_known; [discriminate |].
        apply Hon. reflexivity. }
    replace (match lidar_rate o with
             | Some pps =>
                 set_path (lidar_path o "PointsPerSecond") (JInt pps) data'
             | None => Some data'
             end) with (Some data').
    2:{ destruct (lidar_rate o) as [pps |]; [| reflexivity].
        symmetry. apply set_known; [discriminate |].
        apply Hpps. reflexivity. }
    reflexivity. }
  rewrite Hsame in Hint.
  destruct (apply_options o data') as [[d c] | e]; [| discriminate Hint].
  injection Hint as -> ->. reflexivity.
Qed.

(** ** What the command writes *)

(** X25: the command writes [settings.json] exactly when the file holds a
    value that is not empty, [--save] is given, and the changes succeed with
    at least one change asked for; what it writes is the changed
    settings. *)
Theorem settings_written_iff (o : options) (file : file_state) (d : json) :
  written (settings_cmd o file) = Some d
  <-> exists data,
        file = Holds data /\ truthy data = true /\ save o = true
        /\ apply_options o data = Done (d, true).
Proof.
  unfold settings_cmd. split.
  - destruct file as [| | | data]; cbn [read_settings truthy List.length
      Nat.eqb negb written]; try discriminate.
    destruct (truthy data) eqn:Htruthy; cbn [negb written];
      [| discriminate].
    destruct (apply_options o data) as [[d' changed] | e] eqn:Hrun;
      cbn [written]; [| discriminate].
    destruct (save o) eqn:Hsave; destruct changed; cbn [andb written];
      try discriminate.
    intros H. injection H as <-. exists data.
    repeat split; assumption.
  - intros (data & -> & Htruthy & Hsave & Hrun).
    cbn [read_settings]. rewrite Htruthy, Hrun, Hsave. reflexivity.
Qed.

(** X26: when a lidar option is given and the settings hold something at
    [Vehicles] that is not an object, the command raises [AttributeError];
    it prints nothing and writes nothing. *)
Theorem settings_vehicles_not_object (o : options)
    (items : list (string * json)) (v : json) :
  lookup "Vehicles" items = Some v ->
  is_object v = false ->
  enable_lidar o <> None \/ lidar_rate o <> None ->
  settings_cmd o (Holds (JDict items)) =
    {| outcome := Failed Attribute_error; printed := []; written := None |}.
Proof.
  intros Hv Hobj Hlidar.
  assert (Hfail : forall items1 changed1,
    lookup "Vehicles" items1 = Some v ->
    match enable_lidar o, lidar_rate o with
    | None, None => Done (JDict items1, changed1)
    | _, _ =>
        a <- setdefault (JDict items1) "Vehicles" ;;
        let '(vehicles, data2) := a in
        b <- setdefault vehicles (vkey o) ;;
        let '(car, vehicles1) := b in
        c <- setdefault car "Sensors" ;;
        let '(sensors, car1) := c in
        d <- setdefault sensors "Lidar360" ;;
        let '(lidar, sensors1) := d in
        lidar1 <- (match enable_lidar o with
                   | Some on => setitem lidar "Enabled" (JBool on)
                   | None => Done lidar
                   end) ;;
        lidar2 <- (match lidar_rate o with
                   | Some pps => setitem lidar1 "PointsPerSecond" (JInt pps)
                   | None => Done lidar1
                   end) ;;
        Done (graft data2 "Vehicles"
                (graft vehicles1 (vkey o)
                   (graft car1 "Sensors"
                      (graft sensors1 "Lidar360" lidar2))),
              true)
    end = Failed Attribute_error).
  { intros items1 changed1 Hv1.
    destruct (enable_lidar o) as [on |]; destruct (lidar_rate o) as [pps |];
      try (unfold setdefault at 1; rewrite Hv1; cbn [rbind];
           destruct v; try reflexivity; discriminate Hobj).
    destruct Hlidar as [H | H]; contradiction. }
  assert (Hrun : apply_options o (JDict items) = Failed Attribute_error).
  { unfold apply_options.
    destruct (sim_mode o) as [[| c s] |]; cbn [setitem rbind].
    - apply Hfail. exact Hv.
    - apply Hfail. rewrite lookup_put_other; [exact Hv | discriminate].
    - apply Hfail. exact Hv. }
  unfold settings_cmd. cbn [read_settings].
  replace (truthy (JDict items)) with true;
    [| destruct items; [discriminate Hv | reflexivity]].
  rewrite Hrun. reflexivity.
Qed.

Example plain_then_lidar :
  apply_options lidar_on plain_settings = Done (lidar_settings, true).
Proof. reflexivity. Qed.

Lemma settings_values_found_witness :
  (forall c s, sim_mode lidar_on = Some (String c s) ->
     at_path ["SimMode"%string] lidar_settings = Some (JStr (String c s)))
  /\ (forall on, enable_lidar lidar_on = Some on ->
        at_path (lidar_path lidar_on "Enabled") lidar_settings
        = Some (JBool on))
  /\ (forall pps, lidar_rate lidar_on = Some pps ->
        at_path (lidar_path lidar_on "PointsPerSecond") lidar_settings
        = Some (JInt pps))
  /\ true = asks lidar_on.
Proof.
  exact (settings_values_found lidar_on plain_settings lidar_settings true
           eq_refl).
Defined.

Lemma settings_rest_untouched_witness :
  at_path ["Vehicles"%string; "Car1"%string; "VehicleType"%string]
    lidar_settings
  = at_path ["Vehicles"%string; "Car1"%string; "VehicleType"%string]
      plain_settings.
Proof.
  apply (settings_rest_untouched lidar_on plain_settings lidar_settings true
           ["Vehicles"%string; "Car1"%string; "VehicleType"%string]).
  - reflexivity.
  - exists [], "Vehicles"%string, ["Car1"%string; "VehicleType"%string],
      "SimMode"%string, [].
    repeat split. discriminate.
  - exists ["Vehicles"%string; "Car1"%string], "VehicleType"%string, [],
      "Sensors"%string, ["Lidar360"%string; "Enabled"%string].
    repeat split. discriminate.
  - exists ["Vehicles"%string; "Car1"%string], "VehicleType"%string, [],
      "Sensors"%string, ["Lidar360"%string; "PointsPerSecond"%string].
    repeat split. discriminate.
Defined.

Lemma settings_idempotent_witness :
  apply_options lidar_on lidar_settings = Done (lidar_settings, true).
Proof.
  exact (settings_idempotent lidar_on plain_settings lidar_settings true
           eq_refl).
Defined.

Lemma settings_vehicles_not_object_witness :
  settings_cmd lidar_on (Holds odd_settings) =
    {| outcome := Failed Attribute_error; printed := []; written := None |}.
Proof.
  apply (settings_vehicles_not_object lidar_on
           [("Vehicles"%string, JList [])] (JList [])).
  - reflexivity.
  - reflexivity.
  - left. discriminate.
Defined.

(** [settings --enable-lidar --lidar-pps 1000 --save] on the plain
    settings. *)
Example settings_saved :
  settings_cmd lidar_on (Holds plain_settings) =
    {| outcome := Done tt; printed := [Saved];
       written := Some lidar_settings |}.
Proof. reflexivity. Qed.

End SettingsFacts.
